(** * smallshell.c: a shallow embedding of the shell loop

    The program is one [main] function: a do-while loop that reads a line,
    tokenizes it with [strtok], expands [$$], dispatches to a built-in or
    forks, and finally polls its background children.  The embedding keeps
    the four phases as separate functions and threads the variables of
    [main] that live across iterations through a record.

    - C [int] and [pid_t] values are [Z]; flags stay [Z] with the values 0
      and 1 exactly as the source tests them ([== 0], [!= 0]).
    - C strings are [string]; a fixed-size [malloc] buffer is modelled by its
      capacity, and writing a string that does not fit is a [Fault].
    - A null pointer that the source dereferences is a [Fault] as well.
    - System calls are recorded in a trace of [event]s; what the operating
      system answers (the result of [fork], the status stored by [waitpid],
      whether a job ever ends) is an input of each iteration, the record
      [os_reply].  A blocking wait on a job that never ends is the outcome
      [Blocked]. *)

From Stdlib Require Import ZArith List String Ascii Bool Lia DecimalString.
Import ListNotations.
Open Scope string_scope.
Open Scope Z_scope.

(** ** C library pieces used by [main] *)

Module CLib.

(** The newline character and the one-character string holding it. *)
Definition nl_char : ascii := ascii_of_nat 10.
Definition nl : string := String nl_char EmptyString.

(** What a step of the program can run into instead of a value. *)
Inductive fault : Type :=
| NullDeref        (* a null pointer is read: strcpy(dst, NULL), token[0] *)
| BufferOverflow   (* a string is written past the end of its buffer *)
| IndexOutOfRange. (* args[i] or children[i] past the array *)

Inductive result (A : Type) : Type :=
| Ok (a : A)
| Fault (f : fault).
Arguments Ok {A} a.
Arguments Fault {A} f.

Definition rbind {A B : Type} (r : result A) (k : A -> result B) : result B :=
  match r with
  | Ok a => k a
  | Fault f => Fault f
  end.

Declare Scope result_scope.
Delimit Scope result_scope with res.
Notation "x <-r m ; k" := (rbind m (fun x => k))
  (at level 61, m at next level, right associativity) : result_scope.

(** [strlen]. *)
Definition strlen (s : string) : Z := Z.of_nat (String.length s).

(** [strcpy(dst, src)] into a buffer of [cap] bytes: the string and its
    terminating zero must fit; [src] may be the null pointer. *)
Definition strcpy (cap : Z) (src : option string) : result string :=
  match src with
  | None => Fault NullDeref
  | Some s => if strlen s <? cap then Ok s else Fault BufferOverflow
  end.

(** [strcmp(a, b) == 0]. *)
Definition streq (a b : string) : bool := String.eqb a b.

(** [strstr(hay, needle) != NULL]. *)
Fixpoint strstr (hay needle : string) : bool :=
  if String.prefix needle hay then true
  else match hay with
       | EmptyString => false
       | String _ hay' => strstr hay' needle
       end.

(** Is [c] one of the characters of the delimiter string? *)
Fixpoint is_delim (delims : string) (c : ascii) : bool :=
  match delims with
  | EmptyString => false
  | String d delims' => Ascii.eqb c d || is_delim delims' c
  end.

(** The tokens that [strtok(s, delims)] followed by [strtok(NULL, delims)]
    until it returns NULL hands out, in order.  [cur] is the token being
    scanned; runs of delimiters produce no empty token. *)
Fixpoint strtok_from (delims : string) (cur : string) (s : string) : list string :=
  match s with
  | EmptyString => match cur with EmptyString => [] | _ => [cur] end
  | String c s' =>
      if is_delim delims c
      then match cur with
           | EmptyString => strtok_from delims EmptyString s'
           | _ => cur :: strtok_from delims EmptyString s'
           end
      else strtok_from delims (cur ++ String c EmptyString) s'
  end.

Definition strtok_all (s delims : string) : list string :=
  strtok_from delims EmptyString s.

(** The first call [strtok(s, delims)]: the first token, or NULL. *)
Definition strtok (s delims : string) : option string :=
  hd_error (strtok_all s delims).

(** [printf("%d", n)]. *)
Definition fmt_d (n : Z) : string := NilZero.string_of_int (Z.to_int n).

(** *** The wait-status macros (glibc, bits/waitstatus.h)

    [main] uses WIFEXITED, WEXITSTATUS, WIFSIGNALED and WTERMSIG from the
    system headers.  They are bit operations on the [int] status. *)

Definition WTERMSIG (status : Z) : Z := Z.land status 127.

Definition WEXITSTATUS (status : Z) : Z := Z.shiftr (Z.land status 65280) 8.

(** [WIFEXITED(s)] is [WTERMSIG(s) == 0], an [int] 0 or 1. *)
Definition WIFEXITED (status : Z) : Z :=
  if WTERMSIG status =? 0 then 1 else 0.

(** Conversion of a small [int] to [signed char]. *)
Definition to_signed_char (v : Z) : Z :=
  let m := v mod 256 in if m <? 128 then m else m - 256.

(** [WIFSIGNALED(s)] is [((signed char) ((s & 0x7f) + 1) >> 1) > 0]. *)
Definition WIFSIGNALED (status : Z) : Z :=
  if 0 <? Z.shiftr (to_signed_char (Z.land status 127 + 1)) 1 then 1 else 0.

(** The C expression [a != b], an [int] 0 or 1. *)
Definition c_ne (a b : Z) : Z := if a =? b then 0 else 1.

Definition SIGKILL : Z := 9.
Definition WNOHANG : Z := 1.

End CLib.
Import CLib.
Local Open Scope result_scope.

(** ** The parser (lines 163-204 of [main]) *)

(** The variables the tokenizing loop fills in.  [args] holds
    [args[0 .. num_args-1]]; [num_args] is its length. *)
Record parsed : Type := mkParsed {
  command : string;            (* char *command, 20 bytes *)
  args : list string;          (* char *args[513], 20 bytes each *)
  input_file : string;         (* char *input_file, 25 bytes *)
  output_file : string;        (* char *output_file, 25 bytes *)
  run_in_background : Z        (* int run_in_background *)
}.

Definition num_args (p : parsed) : Z := Z.of_nat (List.length (args p)).

(** The state at the top of the loop body, after the memsets: every string
    is empty, no argument, foreground. *)
Definition blank_parsed : parsed :=
  mkParsed EmptyString [] EmptyString EmptyString 0.

Definition set_input_file (p : parsed) (f : string) : parsed :=
  mkParsed (command p) (args p) f (output_file p) (run_in_background p).
Definition set_output_file (p : parsed) (f : string) : parsed :=
  mkParsed (command p) (args p) (input_file p) f (run_in_background p).
Definition set_run_in_background (p : parsed) (b : Z) : parsed :=
  mkParsed (command p) (args p) (input_file p) (output_file p) b.
Definition set_args (p : parsed) (a : list string) : parsed :=
  mkParsed (command p) a (input_file p) (output_file p) (run_in_background p).

(** The [while (token != NULL)] loop.  [toks] is the current token followed
    by everything [strtok(NULL, " \n")] will still return. *)
Fixpoint parse_tokens (fg_only_mode : Z) (toks : list string) (p : parsed)
  : result parsed :=
  match toks with
  | [] => Ok p
  | token :: rest =>
      if streq token "<" then
        (* token = strtok(NULL, " \n"); strcpy(input_file, token);
           with nothing left, strtok returns NULL *)
        match rest with
        | [] => f <-r strcpy 25 None ; Ok (set_input_file p f)
        | next :: rest' =>
            f <-r strcpy 25 (Some next) ;
            parse_tokens fg_only_mode rest' (set_input_file p f)
        end
      else if streq token ">" then
        match rest with
        | [] => f <-r strcpy 25 None ; Ok (set_output_file p f)
        | next :: rest' =>
            f <-r strcpy 25 (Some next) ;
            parse_tokens fg_only_mode rest' (set_output_file p f)
        end
      else if streq token "&" then
        if (fg_only_mode =? 0) && negb (streq (command p) "echo")
        then parse_tokens fg_only_mode rest (set_run_in_background p 1)
        else parse_tokens fg_only_mode rest p
      else
        (* strcpy(args[num_args], token); num_args++; *)
        if 513 <=? num_args p then Fault IndexOutOfRange
        else
          a <-r strcpy 20 (Some token) ;
          parse_tokens fg_only_mode rest (set_args p (args p ++ [a])%list)
  end.

(** From the test on [user_input[0]] to [args[num_args] = NULL].
    [user_input] is what [fgets] left in the buffer; the empty string stands
    for end of input, where [fgets] stores nothing in the zeroed buffer. *)
Definition parse_line (fg_only_mode : Z) (user_input : string) : result parsed :=
  match user_input with
  | String c _ =>
      if Ascii.eqb c nl_char then Ok blank_parsed   (* blank line: token = NULL *)
      else
        match strtok_all user_input (" " ++ nl) with
        | [] => Fault NullDeref                      (* token[0] with token == NULL *)
        | token :: rest =>
            match token with
            | String "#" _ => Ok blank_parsed       (* comment: token = NULL *)
            | _ =>
                cmd <-r strcpy 20 (Some token) ;
                p <-r parse_tokens fg_only_mode (token :: rest)
                        (mkParsed cmd [] EmptyString EmptyString 0) ;
                (* args[num_args] = NULL; *)
                if 513 <=? num_args p then Fault IndexOutOfRange else Ok p
            end
        end
  | EmptyString => Fault NullDeref                   (* strtok gives NULL; token[0] *)
  end.

(** ** The variable expander (lines 206-220) *)

(** [sprintf(buf, ...)] into a buffer of [cap] bytes, [s] being the formatted
    text. *)
Definition sprintf (cap : Z) (s : string) : result string :=
  if strlen s <? cap then Ok s else Fault BufferOverflow.

(** The body of the expander loop for one [args[i]].  In the second branch
    [strtok(args[i], "$$")] splits at the characters of its delimiter string,
    that is at every [$]; [tmpstr] points into [args[i]] itself, and the
    C library reads it before [sprintf] writes the result over it.  When the
    argument holds nothing but [$], [strtok] returns NULL, which the C
    library prints through [%s] as the text "(null)". *)
Definition expand_arg (pid : Z) (arg : string) : result string :=
  if strstr arg "$$" then
    if streq arg "$$" then sprintf 20 (fmt_d pid)
    else
      match strtok arg "$$" with
      | None => sprintf 20 ("(null)" ++ fmt_d pid)
      | Some tmpstr => sprintf 20 (tmpstr ++ fmt_d pid)
      end
  else Ok arg.

(** [for (i = 0; i < num_args; i++)]. *)
Fixpoint expand_args (pid : Z) (a : list string) : result (list string) :=
  match a with
  | [] => Ok []
  | arg :: rest =>
      arg' <-r expand_arg pid arg ;
      rest' <-r expand_args pid rest ;
      Ok (arg' :: rest')
  end.

(** ** Shell state, system calls and the operating system *)

(** The variables of the program that outlive one iteration of the loop.
    [children] holds [children[0 .. num_procs-1]]. *)
Record shell_state : Type := mkState {
  fg_only_mode : Z;        (* int fg_only_mode = 0 (global) *)
  spawnpid : Z;            (* pid_t spawnpid = getpid() *)
  childExitMethod : Z;     (* int childExitMethod = -5 *)
  exit_status : Z;         (* int exit_status = 0 *)
  term_signal : Z;         (* int term_signal = 0 *)
  children : list Z        (* pid_t *children, 150 entries *)
}.

Definition num_procs (st : shell_state) : Z := Z.of_nat (List.length (children st)).

Definition initial_state (shell_pid : Z) : shell_state :=
  mkState 0 shell_pid (-5) 0 0 [].

Definition set_fg_only_mode (st : shell_state) (v : Z) : shell_state :=
  mkState v (spawnpid st) (childExitMethod st) (exit_status st) (term_signal st) (children st).
Definition set_spawnpid (st : shell_state) (v : Z) : shell_state :=
  mkState (fg_only_mode st) v (childExitMethod st) (exit_status st) (term_signal st) (children st).
Definition set_childExitMethod (st : shell_state) (v : Z) : shell_state :=
  mkState (fg_only_mode st) (spawnpid st) v (exit_status st) (term_signal st) (children st).
Definition set_exit_status (st : shell_state) (v : Z) : shell_state :=
  mkState (fg_only_mode st) (spawnpid st) (childExitMethod st) v (term_signal st) (children st).
Definition set_term_signal (st : shell_state) (v : Z) : shell_state :=
  mkState (fg_only_mode st) (spawnpid st) (childExitMethod st) (exit_status st) v (children st).
Definition set_children (st : shell_state) (v : list Z) : shell_state :=
  mkState (fg_only_mode st) (spawnpid st) (childExitMethod st) (exit_status st) (term_signal st) v.

(** What the shell does to the outside world, in program order.  The
    arguments of [SysKill] are those of the prototype
    [int kill(pid_t pid, int sig)], in that order. *)
Inductive event : Type :=
| Printf (text : string)                (* printf on stdout *)
| SysWrite (text : string)              (* write(STDOUT_FILENO, ...) in a handler *)
| Perror (text : string)
| SysFork (ret : Z)
| SysKill (pid : Z) (sig : Z)
| SysWaitpid (pid : Z) (options : Z)
| SysChdir (path : option string).

(** What a child does after [fork] returned 0 in it: where it rebinds
    descriptors 0 and 1 (if at all) and what it passes to [execvp]. *)
Record child_plan : Type := mkPlan {
  child_stdin : option string;
  child_stdout : option string;
  child_argv : list string
}.

(** How a non-blocking [waitpid] answers. *)
Inductive wait_result : Type :=
| Reaped (status : Z)    (* returns the pid and stores the status *)
| StillRunning           (* returns 0, status untouched *)
| WaitError.             (* returns -1, status untouched *)

Inductive signal : Type := SIGINT | SIGTSTP.

(** What the operating system answers during one iteration. *)
Record os_reply : Type := mkOs {
  os_getpid : Z;                       (* getpid() *)
  os_home : option string;             (* getenv("HOME") *)
  os_signals : list signal;            (* signals delivered during fgets *)
  os_fork : Z;                         (* what fork() returns *)
  os_wait_fg : option Z;               (* status stored by the blocking waitpid *)
  os_wait_nohang : Z -> wait_result;   (* waitpid(pid, ..., WNOHANG) *)
  os_job_ends : Z -> bool              (* does the job end, so that a blocking
                                          waitpid on it returns? *)
}.

(** How the loop body ends. *)
Inductive outcome (A : Type) : Type :=
| Continue (a : A)          (* falls through to the next statement *)
| Exited (code : Z)         (* exit(code) *)
| Aborted                   (* abort() *)
| InChild (plan : child_plan)   (* this process is the forked child *)
| Crashed (f : fault)
| Blocked (pid : Z).        (* stays in waitpid(pid, ..., 0): the job never ends *)
Arguments Continue {A} a.
Arguments Exited {A} code.
Arguments Aborted {A}.
Arguments InChild {A} plan.
Arguments Crashed {A} f.
Arguments Blocked {A} pid.

(** Trace and outcome together; [bind] stops at the first outcome that is
    not [Continue]. *)
Definition M (A : Type) : Type := (list event * outcome A)%type.

Definition ret {A : Type} (a : A) : M A := ([], Continue a).

Definition bind {A B : Type} (m : M A) (k : A -> M B) : M B :=
  match m with
  | (tr, Continue a) => let (tr', o) := k a in ((tr ++ tr')%list, o)
  | (tr, Exited c) => (tr, Exited c)
  | (tr, Aborted) => (tr, Aborted)
  | (tr, InChild plan) => (tr, InChild plan)
  | (tr, Crashed f) => (tr, Crashed f)
  | (tr, Blocked pid) => (tr, Blocked pid)
  end.

Definition emit (e : event) : M unit := ([e], Continue tt).

Definition stop {A : Type} (o : outcome A) : M A := ([], o).

Definition lift {A : Type} (r : result A) : M A :=
  match r with
  | Ok a => ret a
  | Fault f => stop (Crashed f)
  end.

Declare Scope shell_scope.
Delimit Scope shell_scope with shell.
Notation "x <- m ;; k" := (bind m (fun x => k))
  (at level 61, m at next level, right associativity) : shell_scope.
Notation "m ;;; k" := (bind m (fun _ => k))
  (at level 61, right associativity) : shell_scope.
Local Open Scope shell_scope.

Definition trace_of {A : Type} (m : M A) : list event := fst m.
Definition outcome_of {A : Type} (m : M A) : outcome A := snd m.

(** The lines the run printed with [printf]. *)
Fixpoint printed (tr : list event) : list string :=
  match tr with
  | [] => []
  | Printf text :: tr' => text :: printed tr'
  | _ :: tr' => printed tr'
  end.

(** ** Signal handlers (lines 31-48) *)

Definition catchSIGINT (st : shell_state) : M shell_state :=
  let message := "Caught SIGINT" ++ nl in
  emit (SysWrite (String.substring 0 14 message)) ;;; ret st.

Definition catchSIGTSTP (st : shell_state) : M shell_state :=
  let enter_fg_mode := "Entering foreground-only mode (& is now ignored)" ++ nl ++ ": " in
  let exit_fg_mode := "Exiting foreground-only mode" ++ nl ++ ": " in
  if fg_only_mode st =? 0 then
    emit (SysWrite (String.substring 0 49 enter_fg_mode)) ;;;
    ret (set_fg_only_mode st 1)
  else
    emit (SysWrite (String.substring 0 29 exit_fg_mode)) ;;;
    ret (set_fg_only_mode st 0).

Definition handle (sg : signal) (st : shell_state) : M shell_state :=
  match sg with
  | SIGINT => catchSIGINT st
  | SIGTSTP => catchSIGTSTP st
  end.

Fixpoint deliver (sgs : list signal) (st : shell_state) : M shell_state :=
  match sgs with
  | [] => ret st
  | sg :: sgs' => st' <- handle sg st ;; deliver sgs' st'
  end.

(** ** Built-in commands (lines 232-292) *)

(** The loop of [exit]: [kill(SIGKILL, children[i])] and a blocking
    [waitpid] for every slot that holds a positive value.  The wait returns
    once the job has ended; nothing in the loop makes it end, so the shell
    stays in the wait for a job that never does. *)
Fixpoint exit_loop (os : os_reply) (cs : list Z) : M unit :=
  match cs with
  | [] => ret tt
  | child :: cs' =>
      (if 0 <? child then
         emit (SysKill SIGKILL child) ;;;
         emit (SysWaitpid child 0) ;;;
         (if os_job_ends os child then ret tt else stop (Blocked child))
       else ret tt) ;;;
      exit_loop os cs'
  end.

Definition exit_builtin (os : os_reply) (st : shell_state) : M shell_state :=
  exit_loop os (children st) ;;; stop (Exited 0).

Definition cd_builtin (os : os_reply) (st : shell_state) (argv : list string)
  : M shell_state :=
  let n := Z.of_nat (List.length argv) in
  (if n =? 1 then emit (SysChdir (os_home os))
   else if n =? 2 then emit (SysChdir (nth_error argv 1))
   else ret tt) ;;;
  ret st.

Definition status_builtin (st : shell_state) : M shell_state :=
  if negb (WIFEXITED (childExitMethod st) =? 0) then
    let st' := set_exit_status st (WEXITSTATUS (childExitMethod st)) in
    emit (Printf ("exit value " ++ fmt_d (exit_status st') ++ nl)) ;;; ret st'
  else if negb (WIFSIGNALED (childExitMethod st) =? 0) then
    let st' := set_term_signal st (WTERMSIG (childExitMethod st)) in
    emit (Printf ("terminated by signal " ++ fmt_d (term_signal st') ++ nl)) ;;; ret st'
  else ret st.

(** ** Launching a command (lines 299-419) *)

(** [fork_now] is reset at the top of every iteration and incremented after
    the one [fork]; the guard compares it with 50. *)
Definition fork_guard (fork_now : Z) (text : string) : M unit :=
  if 50 <=? fork_now then emit (Printf text) ;;; stop Aborted else ret tt.

Definition nonempty (s : string) : bool :=
  match s with EmptyString => false | String _ _ => true end.

(** The redirections the foreground child sets up: only the named files. *)
Definition fg_child_plan (p : parsed) : child_plan :=
  mkPlan (if nonempty (input_file p) then Some (input_file p) else None)
         (if nonempty (output_file p) then Some (output_file p) else None)
         (args p).

(** The background child falls back on /dev/null on both sides. *)
Definition bg_child_plan (p : parsed) : child_plan :=
  mkPlan (Some (if nonempty (input_file p) then input_file p else "/dev/null"))
         (Some (if nonempty (output_file p) then output_file p else "/dev/null"))
         (args p).

Definition launch_foreground (os : os_reply) (st : shell_state) (p : parsed)
  : M shell_state :=
  emit (SysFork (os_fork os)) ;;;
  let st := set_spawnpid st (os_fork os) in
  fork_guard (0 + 1) ("over 50 forks...aborting..." ++ nl) ;;;
  if spawnpid st =? -1 then
    emit (Perror ("fork error" ++ nl)) ;;; stop (Exited 1)
  else if spawnpid st =? 0 then
    stop (InChild (fg_child_plan p))
  else
    emit (SysWaitpid (spawnpid st) 0) ;;;
    let st := match os_wait_fg os with
              | Some status => set_childExitMethod st status
              | None => st
              end in
    if negb (WIFEXITED (childExitMethod st) =? 0) then
      ret (set_exit_status st (WEXITSTATUS (childExitMethod st)))
    else if negb (WIFSIGNALED (childExitMethod st) =? 0) then
      let st := set_term_signal st (WTERMSIG (childExitMethod st)) in
      (if negb (term_signal st =? 11)
       then emit (Printf ("terminated by signal " ++ fmt_d (term_signal st) ++ nl))
       else ret tt) ;;;
      ret st
    else ret st.

Definition launch_background (os : os_reply) (st : shell_state) (p : parsed)
  : M shell_state :=
  emit (SysFork (os_fork os)) ;;;
  let st := set_spawnpid st (os_fork os) in
  fork_guard (0 + 1) ("error: forked over 50 processes. aborting..." ++ nl) ;;;
  if spawnpid st =? -1 then
    emit (Perror ("fork error" ++ nl)) ;;; stop (Exited 1)
  else if spawnpid st =? 0 then
    stop (InChild (bg_child_plan p))
  else
    emit (Printf ("background pid is " ++ fmt_d (spawnpid st) ++ nl)) ;;;
    (* children[num_procs] = spawnpid; num_procs++; *)
    (if 150 <=? num_procs st then stop (Crashed IndexOutOfRange) else ret tt) ;;;
    let st := set_children st (children st ++ [spawnpid st])%list in
    if negb (WIFEXITED (c_ne (childExitMethod st) 0) =? 0) then
      ret (set_exit_status st (WEXITSTATUS (childExitMethod st)))
    else if negb (WIFSIGNALED (childExitMethod st) =? 0) then
      let st := set_term_signal st (WTERMSIG (childExitMethod st)) in
      emit (Printf ("terminated by signal " ++ fmt_d (term_signal st) ++ nl)) ;;;
      ret st
    else ret st.

(** The if / else-if chain on [command]. *)
Definition dispatch (os : os_reply) (st : shell_state) (p : parsed) : M shell_state :=
  if streq (command p) "exit" then exit_builtin os st
  else if streq (command p) "cd" then cd_builtin os st (args p)
  else if streq (command p) "status" then status_builtin st
  else if run_in_background p =? 0 then launch_foreground os st p
  else launch_background os st p.

(** ** The reaper (lines 421-440) *)

(** One pass over [children[0 .. num_procs-1]].  [temp] survives from one
    slot to the next; the scalars travel in [st], the rewritten slots are
    returned next to it. *)
Fixpoint reap_loop (os : os_reply) (temp : Z) (st : shell_state) (cs : list Z)
  : M (shell_state * list Z) :=
  match cs with
  | [] => ret (st, [])
  | child :: cs' =>
      polled <-
        (if negb (child =? -5) then
           emit (SysWaitpid child WNOHANG) ;;;
           match os_wait_nohang os child with
           | Reaped status => ret (child, set_childExitMethod st status)
           | StillRunning => ret (0, st)
           | WaitError => ret (-1, st)
           end
         else ret (temp, st)) ;;
      let temp := fst polled in
      let st := snd polled in
      slot <-
        (if temp =? child then
           emit (Printf ("process " ++ fmt_d child ++ " completed" ++ nl)) ;;;
           st' <-
             (if negb (WIFEXITED (c_ne (childExitMethod st) 0) =? 0) then
                let st := set_exit_status st (WEXITSTATUS (childExitMethod st)) in
                emit (Printf ("exit value " ++ fmt_d (exit_status st) ++ nl)) ;;; ret st
              else if negb (WIFSIGNALED (childExitMethod st) =? 0) then
                let st := set_term_signal st (WTERMSIG (childExitMethod st)) in
                emit (Printf ("term sig was " ++ fmt_d (term_signal st) ++ nl)) ;;; ret st
              else ret st) ;;
           ret (st', -5)
         else ret (st, child)) ;;
      rest <- reap_loop os temp (fst slot) cs' ;;
      ret (fst rest, snd slot :: snd rest)
  end.

Definition reap (os : os_reply) (st : shell_state) : M shell_state :=
  r <- reap_loop os 0 st (children st) ;;
  ret (set_children (fst r) (snd r)).

(** ** One iteration of the do-while loop, and runs of it *)

Definition iteration (os : os_reply) (st : shell_state) (user_input : string)
  : M shell_state :=
  emit (Printf ": ") ;;;
  (* r = fgets(user_input, 2049, stdin) into the 2048 bytes of user_input *)
  st <- deliver (os_signals os) st ;;
  (if 2048 <=? strlen user_input then stop (Crashed BufferOverflow) else ret tt) ;;;
  p <- lift (parse_line (fg_only_mode st) user_input) ;;
  argv <- lift (expand_args (os_getpid os) (args p)) ;;
  st <- dispatch os st (set_args p argv) ;;
  reap os st.

(** The shell fed with one line, and one set of answers, per iteration. *)
Fixpoint run (script : list (os_reply * string)) (st : shell_state) : M shell_state :=
  match script with
  | [] => ret st
  | (os, user_input) :: script' =>
      st' <- iteration os st user_input ;;
      run script' st'
  end.

(** ** Vocabulary of the statements *)

(** Does [s] contain the character [$]? *)
Fixpoint has_dollar (s : string) : bool :=
  match s with
  | EmptyString => false
  | String c s' => Ascii.eqb c "$" || has_dollar s'
  end.

(** The text of [s] before its first [$]. *)
Fixpoint before_dollar (s : string) : string :=
  match s with
  | EmptyString => EmptyString
  | String c s' => if Ascii.eqb c "$" then EmptyString else String c (before_dollar s')
  end.

Definition starts_with_dollar (s : string) : bool :=
  match s with
  | String c _ => Ascii.eqb c "$"
  | EmptyString => false
  end.

(** Is the token a redirection operator? *)
Definition is_redirect (token : string) : bool := streq token "<" || streq token ">".

(** After the tokens [toks], is the loop left inside a [<] or [>] branch,
    about to take the next token as the path? *)
Fixpoint expects_path (toks : list string) : bool :=
  match toks with
  | [] => false
  | token :: rest =>
      if is_redirect token then
        match rest with
        | [] => true
        | _ :: rest' => expects_path rest'
        end
      else expects_path rest
  end.

(** The announcement of a background launch. *)
Definition announces_background (e : event) : bool :=
  match e with
  | Printf text => String.prefix "background pid is " text
  | _ => false
  end.

(** A run that prints no such announcement. *)
Definition quiet {A : Type} (m : M A) : Prop :=
  existsb announces_background (trace_of m) = false.

(** ** Scenarios used by the checks below *)

(** The shell has process id 4242; no signal arrives; [fork] returns
    [child], the blocking wait stores [fg_status], and the non-blocking wait
    answers by [poll].  Every job ends at some point, so that a blocking
    wait on it returns. *)
Definition os_with (child : Z) (fg_status : option Z) (poll : Z -> wait_result)
  : os_reply :=
  mkOs 4242 (Some "/home/user") [] child fg_status poll (fun _ => true).

Definition nobody_done : Z -> wait_result := fun _ => StillRunning.

Definition done_with (status : Z) : Z -> wait_result := fun _ => Reaped status.

(** The same, with a terminal-stop signal arriving at the prompt. *)
Definition os_with_tstp (child : Z) (fg_status : option Z) : os_reply :=
  mkOs 4242 (Some "/home/user") [SIGTSTP] child fg_status nobody_done (fun _ => true).

Definition shell0 : shell_state := initial_state 4242.

(** ** The child side of [fork] (lines 313-337 and 368-401) *)

(** The [open] flags and file modes the child passes (Linux values; the
    modes are the octal 0644 and 0744). *)
Definition O_RDONLY : Z := 0.
Definition O_WRONLY : Z := 1.
Definition O_CREAT : Z := 64.
Definition O_TRUNC : Z := 512.
Definition mode_0644 : Z := 420.
Definition mode_0744 : Z := 484.

(** What the child does, in program order. *)
Inductive child_event : Type :=
| ChildOpen (path : string) (flags : Z) (mode : option Z)
| ChildDup2 (oldfd : Z) (newfd : Z)
| ChildPerror (text : string)
| ChildExecvp (file : option string) (argv : list string).

(** How the [case 0:] branch ends. *)
Inductive child_end : Type :=
| ChildExited (code : Z)   (* exit(code) *)
| ChildReplaced            (* execvp took over the process *)
| ChildBreaks.             (* execvp returned a value >= 0: break *)

(** What the operating system answers to the child. *)
Record child_os : Type := mkChildOs {
  cos_open : string -> Z -> Z;     (* open(path, flags, ...): a descriptor or -1 *)
  cos_dup2 : Z -> Z -> Z;          (* dup2(oldfd, newfd) *)
  cos_execvp : option Z            (* None: does not return; Some r: returns r *)
}.

Definition child_run : Type := (list child_event * child_end)%type.

(** A redirection to a file the user named: [open], test, [dup2], test,
    then the rest [k] of the branch. *)
Definition redirect_named (cos : child_os) (path : string) (flags : Z)
    (mode : option Z) (newfd : Z) (k : child_run) : child_run :=
  let fd := cos_open cos path flags in
  if fd =? -1 then
    ([ChildOpen path flags mode; ChildPerror "open()"], ChildExited 1)
  else
    let result := cos_dup2 cos fd newfd in
    if result =? -1 then
      ([ChildOpen path flags mode; ChildDup2 fd newfd; ChildPerror "dup2"],
       ChildExited 2)
    else (ChildOpen path flags mode :: ChildDup2 fd newfd :: fst k, snd k).

(** The fallback of the background child: [open] and [dup2] on /dev/null,
    neither result tested. *)
Definition redirect_devnull (cos : child_os) (flags : Z) (mode : option Z)
    (newfd : Z) (k : child_run) : child_run :=
  let fd := cos_open cos "/dev/null" flags in
  (ChildOpen "/dev/null" flags mode :: ChildDup2 fd newfd :: fst k, snd k).

(** [if (execvp(args[0], args) < 0) { perror(...); exit(1); } break;] *)
Definition child_exec (cos : child_os) (argv : list string) : child_run :=
  match cos_execvp cos with
  | None => ([ChildExecvp (hd_error argv) argv], ChildReplaced)
  | Some r =>
      if r <? 0
      then ([ChildExecvp (hd_error argv) argv; ChildPerror "incorrect command"],
            ChildExited 1)
      else ([ChildExecvp (hd_error argv) argv], ChildBreaks)
  end.

Definition child_foreground (cos : child_os) (p : parsed) : child_run :=
  (if nonempty (input_file p)
   then redirect_named cos (input_file p) O_RDONLY None 0
   else fun k => k)
    ((if nonempty (output_file p)
      then redirect_named cos (output_file p)
             (Z.lor O_WRONLY (Z.lor O_CREAT O_TRUNC)) (Some mode_0644) 1
      else fun k => k)
       (child_exec cos (args p))).

Definition child_background (cos : child_os) (p : parsed) : child_run :=
  (if nonempty (input_file p)
   then redirect_named cos (input_file p) O_RDONLY None 0
   else redirect_devnull cos O_RDONLY None 0)
    ((if nonempty (output_file p)
      then redirect_named cos (output_file p)
             (Z.lor O_WRONLY (Z.lor O_CREAT O_TRUNC)) (Some mode_0644) 1
      else redirect_devnull cos (Z.lor O_WRONLY O_CREAT) (Some mode_0744) 1)
       (child_exec cos (args p))).

(** The paths the child opened, in order. *)
Fixpoint opened (tr : list child_event) : list string :=
  match tr with
  | [] => []
  | ChildOpen path _ _ :: tr' => path :: opened tr'
  | _ :: tr' => opened tr'
  end.

(** The descriptors the child rebound, in order. *)
Fixpoint rebound (tr : list child_event) : list Z :=
  match tr with
  | [] => []
  | ChildDup2 _ newfd :: tr' => newfd :: rebound tr'
  | _ :: tr' => rebound tr'
  end.

Definition reaches_exec (tr : list child_event) : bool :=
  existsb (fun e => match e with ChildExecvp _ _ => true | _ => false end) tr.

(** The paths of a plan, standard input first. *)
Definition plan_paths (plan : child_plan) : list string :=
  (match child_stdin plan with Some f => [f] | None => [] end ++
   match child_stdout plan with Some f => [f] | None => [] end)%list.

(** ** More vocabulary *)

(** The child of either path, and the plan the parent side attaches to it. *)
Definition child_run_of (bg : bool) (cos : child_os) (p : parsed) : child_run :=
  if bg then child_background cos p else child_foreground cos p.

Definition plan_of (bg : bool) (p : parsed) : child_plan :=
  if bg then bg_child_plan p else fg_child_plan p.

(** The flags of an output redirection to a named file. *)
Definition output_flags : Z := Z.lor O_WRONLY (Z.lor O_CREAT O_TRUNC).

(** The descriptors a plan asks to rebind. *)
Definition plan_descriptors (plan : child_plan) : list Z :=
  (match child_stdin plan with Some _ => [0] | None => [] end ++
   match child_stdout plan with Some _ => [1] | None => [] end)%list.


(** A slot of the job table is either free (-5) or holds a process id. *)
Definition slot_ok (c : Z) : Prop := c = -5 \/ 0 < c.

(** What the reaper leaves in a slot, given the answers of [waitpid]. *)
Definition reaped_slot (poll : Z -> wait_result) (c : Z) : Z :=
  if c =? -5 then -5
  else match poll c with
       | Reaped _ => -5
       | _ => c
       end.

(** The slots the reaper polls. *)
Definition live_slots (cs : list Z) : list Z :=
  filter (fun c => negb (c =? -5)) cs.

Definition is_reaped (r : wait_result) : bool :=
  match r with Reaped _ => true | _ => false end.

(** The calls to [fork] and the blocking waits in a trace. *)
Fixpoint forks (tr : list event) : nat :=
  match tr with
  | [] => O
  | SysFork _ :: tr' => S (forks tr')
  | _ :: tr' => forks tr'
  end.

Definition is_blocking_wait (e : event) : bool :=
  match e with
  | SysWaitpid _ options => options =? 0
  | _ => false
  end.

(** The calls to [waitpid] in a trace: process id and options. *)
Fixpoint waits (tr : list event) : list (Z * Z) :=
  match tr with
  | [] => []
  | SysWaitpid pid options :: tr' => (pid, options) :: waits tr'
  | _ :: tr' => waits tr'
  end.

(** A run that forks at most [n] times and does not end in [abort]. *)
Definition calm {A : Type} (n : nat) (m : M A) : Prop :=
  (forks (trace_of m) <= n)%nat /\ outcome_of m <> Aborted.

(** How many terminal-stop signals a list holds. *)
Fixpoint count_tstp (sgs : list signal) : nat :=
  match sgs with
  | [] => O
  | SIGTSTP :: sgs' => S (count_tstp sgs')
  | SIGINT :: sgs' => count_tstp sgs'
  end.

(** The names the if / else-if chain of [main] handles itself. *)
Definition is_builtin (name : string) : bool :=
  streq name "exit" || streq name "cd" || streq name "status".

(** A token the loop files under "everything else". *)
Definition plain_token (token : string) : bool :=
  negb (streq token "<") && negb (streq token ">") && negb (streq token "&").

Definition fits (cap : Z) (s : string) : Prop := strlen s < cap.

(** [s] without its leading [$] characters, and the first stretch of [s]
    that holds no [$]. *)
Fixpoint skip_dollars (s : string) : string :=
  match s with
  | EmptyString => EmptyString
  | String c s' => if Ascii.eqb c "$" then skip_dollars s' else s
  end.

Definition first_segment (s : string) : string := before_dollar (skip_dollars s).

(** A string made of [$] only. *)
Fixpoint all_dollars (s : string) : bool :=
  match s with
  | EmptyString => true
  | String c s' => Ascii.eqb c "$" && all_dollars s'
  end.

(** * Properties *)

(** ** Sanity checks of the embedding on concrete inputs *)

Example strtok_all_demo :
  strtok_all ("ls  -l > out &" ++ nl) (" " ++ nl) = ["ls"; "-l"; ">"; "out"; "&"].
Proof. reflexivity. Qed.

Example wait_status_demo :
  (WIFEXITED 256, WEXITSTATUS 256, WIFSIGNALED 256, WIFSIGNALED 15, WTERMSIG 139, fmt_d (-5))
  = (1, 1, 0, 1, 11, "-5").
Proof. reflexivity. Qed.

Example parse_line_demo :
  parse_line 0 ("wc -l < in.txt > out.txt &" ++ nl)
  = Ok (mkParsed "wc" ["wc"; "-l"] "in.txt" "out.txt" 1).
Proof. reflexivity. Qed.

Example echo_never_in_background :
  parse_line 0 ("echo hi &" ++ nl) = Ok (mkParsed "echo" ["echo"; "hi"] "" "" 0).
Proof. reflexivity. Qed.

(** ** The tokenizer *)

(** [strtok] never hands out an empty token, so [token[0]] is read safely
    whenever [token] is not NULL. *)
Lemma strtok_from_nonempty (delims : string) (s : string) :
  forall cur token, In token (strtok_from delims cur s) -> token <> "".
Proof.
  induction s as [|c s IH]; intros cur token; cbn [strtok_from].
  - destruct cur; cbn; [tauto|]. intros [<- | []]. discriminate.
  - destruct (is_delim delims c).
    + destruct cur as [|x cur'].
      * apply IH.
      * cbn [In]. intros [<- | H]; [discriminate | exact (IH _ _ H)].
    + apply IH.
Qed.

(** ** The expander *)

Section Expander.

Variable pid : Z.

Lemma is_delim_dollar (c : ascii) :
  is_delim "$$" c = Ascii.eqb c "$".
Proof.
  simpl. destruct (Ascii.eqb c "$"); reflexivity.
Qed.

Lemma append_assoc (a b c : string) : (a ++ b) ++ c = a ++ (b ++ c).
Proof.
  induction a as [|x a IH]; simpl; [reflexivity | now rewrite IH].
Qed.

Lemma append_empty_r (a : string) : a ++ "" = a.
Proof.
  induction a as [|x a IH]; simpl; [reflexivity | now rewrite IH].
Qed.

(** The first token [strtok] cuts at [$] is the scanned text up to the
    first [$], provided that text is not empty. *)
Lemma strtok_from_dollar (s cur : string) :
  has_dollar s = true ->
  cur ++ before_dollar s <> "" ->
  hd_error (strtok_from "$$" cur s) = Some (cur ++ before_dollar s).
Proof.
  revert cur. induction s as [|c s IH]; intros cur Hd Hne.
  - discriminate.
  - cbn [strtok_from]. rewrite is_delim_dollar.
    cbn [has_dollar before_dollar] in *.
    destruct (Ascii.eqb c "$") eqn:Ec.
    + rewrite append_empty_r in *.
      destruct cur; [congruence | reflexivity].
    + cbn [orb] in Hd.
      replace (cur ++ String c (before_dollar s))
        with ((cur ++ String c "") ++ before_dollar s) in *
        by (rewrite append_assoc; reflexivity).
      apply IH; assumption.
Qed.

Lemma strstr_has_dollar (s : string) :
  strstr s "$$" = true -> has_dollar s = true.
Proof.
  induction s as [|c s IH]; cbn [strstr has_dollar].
  - cbn. discriminate.
  - destruct (String.prefix "$$" (String c s)) eqn:Ep.
    + intros _. cbn [String.prefix] in Ep.
      destruct (ascii_dec "$" c) as [<-|]; [reflexivity | discriminate].
    + intros H. rewrite (IH H). apply orb_true_r.
Qed.

Lemma strstr_suffix (prefix : string) : strstr (prefix ++ "$$") "$$" = true.
Proof.
  induction prefix as [|c p IH].
  - reflexivity.
  - cbn [append strstr]. destruct (String.prefix "$$" (String c (p ++ "$$"))); auto.
Qed.

Lemma before_dollar_suffix (prefix rest : string) :
  has_dollar prefix = false ->
  before_dollar (prefix ++ String "$" rest) = prefix.
Proof.
  induction prefix as [|c p IH]; cbn [append has_dollar before_dollar].
  - reflexivity.
  - intros H. apply orb_false_iff in H as [Hc Hp].
    rewrite Hc, (IH Hp). reflexivity.
Qed.

Lemma streq_not_dollars (s : string) :
  starts_with_dollar s = false -> streq s "$$" = false.
Proof.
  destruct s as [|c s]; [reflexivity|].
  cbn. intros H. unfold streq. cbn [String.eqb].
  destruct (Ascii.eqb_spec c "$") as [->|Hc]; [discriminate | reflexivity].
Qed.

(** What [expand_arg] computes on an argument that holds [$$] and does not
    begin with [$]. *)
Lemma expand_arg_before_dollar (arg : string) :
  strstr arg "$$" = true ->
  starts_with_dollar arg = false ->
  expand_arg pid arg = sprintf 20 (before_dollar arg ++ fmt_d pid).
Proof.
  intros Hs Hd. unfold expand_arg, strtok, strtok_all.
  rewrite Hs, (streq_not_dollars _ Hd).
  rewrite strtok_from_dollar.
  - reflexivity.
  - apply strstr_has_dollar, Hs.
  - destruct arg as [|c a]; [discriminate|].
    cbn in Hd |- *. rewrite Hd. discriminate.
Qed.

End Expander.

Lemma sprintf_fits (cap : Z) (s : string) :
  strlen s < cap -> sprintf cap s = Ok s.
Proof.
  intros H. unfold sprintf. apply Z.ltb_lt in H. rewrite H. reflexivity.
Qed.

(** C8 (the code departs from the claim): the source says it replaces any
    instance of [$$], and that an argument with [$$] appended to the end
    works.  [echo $$] and [foo$$] do come out as the process id and as
    [foo] followed by it; but [strtok(args[i], "$$")] cuts at the first
    [$], so on [a$b$$], which ends in [$$] as well, the result is [a4242]
    and not [a$b4242]: the [$b] of the prefix is lost. *)
Theorem expand_suffix_drops_text :
  expand_arg 4242 "$$" = Ok "4242" /\
  expand_arg 4242 ("foo" ++ "$$") = Ok ("foo" ++ fmt_d 4242) /\
  expand_arg 4242 ("a$b" ++ "$$") = Ok "a4242" /\
  expand_arg 4242 ("a$b" ++ "$$") <> Ok ("a$b" ++ fmt_d 4242).
Proof.
  repeat split; try reflexivity. vm_compute. discriminate.
Qed.

(** Where the text before the trailing [$$] holds no [$], the expansion
    does what the comments of the source say: the argument becomes that
    text followed by the decimal process id of the shell, provided the
    result fits the 20 bytes of the argument buffer.  The empty text is
    the argument that is exactly [$$]. *)
Theorem expand_whole_or_suffix (pid : Z) (prefix : string) :
  has_dollar prefix = false ->
  strlen (prefix ++ fmt_d pid) < 20 ->
  expand_arg pid (prefix ++ "$$") = Ok (prefix ++ fmt_d pid).
Proof.
  intros Hd Hfit. destruct prefix as [|c p].
  - cbn [append] in *. unfold expand_arg.
    change (strstr "$$" "$$") with true. change (streq "$$" "$$") with true.
    cbv iota. apply sprintf_fits, Hfit.
  - rewrite expand_arg_before_dollar.
    + change "$$" with (String "$" "$"). rewrite before_dollar_suffix by exact Hd.
      apply sprintf_fits, Hfit.
    + apply strstr_suffix.
    + cbn in Hd |- *. apply orb_false_iff in Hd. tauto.
Qed.

Lemma expand_whole_or_suffix_witness :
  has_dollar "foo" = false /\
  strlen ("foo" ++ fmt_d 4242) < 20 /\
  expand_arg 4242 ("foo" ++ "$$") = Ok ("foo" ++ fmt_d 4242).
Proof.
  split; [reflexivity|]. split; [reflexivity|].
  apply (expand_whole_or_suffix 4242 "foo"); reflexivity.
Defined.

(** The two shapes on whole lines: [echo $$] and [echo foo$$]. *)
Lemma echo_pid_lines (pid : Z) :
  strlen ("foo" ++ fmt_d pid) < 20 ->
  (p <-r parse_line 0 ("echo $$" ++ nl) ; expand_args pid (args p))
    = Ok ["echo"; fmt_d pid] /\
  (p <-r parse_line 0 ("echo foo$$" ++ nl) ; expand_args pid (args p))
    = Ok ["echo"; "foo" ++ fmt_d pid].
Proof.
  intros Hfit.
  assert (Hfit0 : strlen (fmt_d pid) < 20).
  { revert Hfit. unfold strlen. cbn [append String.length]. lia. }
  change (parse_line 0 ("echo $$" ++ nl))
    with (Ok (mkParsed "echo" ["echo"; "$$"] "" "" 0)).
  change (parse_line 0 ("echo foo$$" ++ nl))
    with (Ok (mkParsed "echo" ["echo"; "foo$$"] "" "" 0)).
  cbn [rbind args expand_args].
  change (expand_arg pid "echo") with (Ok (A := string) "echo").
  change (expand_arg pid "$$") with (sprintf 20 (fmt_d pid)).
  rewrite (expand_arg_before_dollar pid "foo$$") by reflexivity.
  change (before_dollar "foo$$") with "foo".
  rewrite !sprintf_fits by assumption.
  split; reflexivity.
Qed.

(** C10, as the claim states it, fails on an argument that begins with [$]:
    [strtok] skips the leading [$] and hands out the text after it, so
    [$a$$b] becomes [a4242], whereas the text before its first [$] is
    empty. *)
Lemma expand_interior_counterexample :
  strstr "$a$$b" "$$" = true /\
  streq "$a$$b" "$$" = false /\
  expand_arg 4242 "$a$$b" = Ok "a4242" /\
  expand_arg 4242 "$a$$b" <> Ok (before_dollar "$a$$b" ++ fmt_d 4242).
Proof.
  repeat split; try reflexivity. vm_compute. discriminate.
Qed.

(** C10 (amended): an argument that contains [$$] and does not begin with
    [$] is rewritten to the text before its first [$] followed by the
    decimal process id of the shell; whatever follows that [$] is dropped.
    The result has to fit the 20 bytes of the argument buffer. *)
Theorem expand_interior (pid : Z) (arg : string) :
  strstr arg "$$" = true ->
  starts_with_dollar arg = false ->
  strlen (before_dollar arg ++ fmt_d pid) < 20 ->
  expand_arg pid arg = Ok (before_dollar arg ++ fmt_d pid).
Proof.
  intros Hs Hd Hfit.
  rewrite expand_arg_before_dollar by assumption.
  apply sprintf_fits, Hfit.
Qed.

Lemma expand_interior_witness :
  strstr "a$$b" "$$" = true /\
  starts_with_dollar "a$$b" = false /\
  strlen (before_dollar "a$$b" ++ fmt_d 4242) < 20 /\
  expand_arg 4242 "a$$b" = Ok ("a" ++ fmt_d 4242).
Proof.
  split; [reflexivity|]. split; [reflexivity|]. split; [reflexivity|].
  apply (expand_interior 4242 "a$$b"); reflexivity.
Defined.

(** ** The foreground path *)

Lemma signaled_not_exited (status : Z) :
  WIFSIGNALED status = 1 -> WIFEXITED status = 0.
Proof.
  unfold WIFSIGNALED, WIFEXITED, WTERMSIG.
  destruct (Z.land status 127 =? 0) eqn:E; [|reflexivity].
  apply Z.eqb_eq in E. rewrite E. vm_compute. discriminate.
Qed.

(** C9: when the foreground child ends by a signal, the parent stores the
    wait status, records the signal number in [term_signal], and prints
    "terminated by signal N" unless N is 11, in which case it prints
    nothing. *)
Theorem foreground_signal_recorded
    (os : os_reply) (st : shell_state) (p : parsed) (status : Z) :
  os_fork os <> -1 ->
  os_fork os <> 0 ->
  os_wait_fg os = Some status ->
  WIFSIGNALED status = 1 ->
  exists st',
    outcome_of (launch_foreground os st p) = Continue st' /\
    childExitMethod st' = status /\
    term_signal st' = WTERMSIG status /\
    printed (trace_of (launch_foreground os st p)) =
      (if WTERMSIG status =? 11 then []
       else ["terminated by signal " ++ fmt_d (WTERMSIG status) ++ nl]).
Proof.
  intros Hm1 H0 Hw Hsig.
  pose proof (signaled_not_exited _ Hsig) as Hex.
  unfold launch_foreground, fork_guard. cbn [Z.add Z.leb Z.compare Pos.compare Pos.compare_cont].
  cbn [set_spawnpid spawnpid].
  apply Z.eqb_neq in Hm1, H0. rewrite Hw.
  cbn [bind emit ret stop app set_childExitMethod childExitMethod
       set_term_signal term_signal].
  rewrite Hm1, H0. cbn [bind emit ret stop app].
  rewrite Hex, Hsig. cbn [Z.eqb negb bind emit ret stop app].
  destruct (WTERMSIG status =? 11) eqn:E11; cbn;
    eexists; repeat split; reflexivity.
Qed.

Lemma foreground_signal_recorded_witness :
  exists st',
    outcome_of (launch_foreground (os_with 100 (Some 2) nobody_done) shell0
                  (mkParsed "sleep" ["sleep"; "9"] "" "" 0))
      = Continue st' /\
    childExitMethod st' = 2 /\
    term_signal st' = WTERMSIG 2 /\
    printed (trace_of (launch_foreground (os_with 100 (Some 2) nobody_done) shell0
                         (mkParsed "sleep" ["sleep"; "9"] "" "" 0)))
      = (if WTERMSIG 2 =? 11 then []
         else ["terminated by signal " ++ fmt_d (WTERMSIG 2) ++ nl]).
Proof.
  apply (foreground_signal_recorded (os_with 100 (Some 2) nobody_done) shell0
           (mkParsed "sleep" ["sleep"; "9"] "" "" 0) 2).
  - cbn. lia.
  - cbn. lia.
  - reflexivity.
  - reflexivity.
Defined.

(** ** The parser *)

(** Induction along the way [parse_tokens] walks its tokens: a redirection
    operator takes the token after it along. *)
Lemma parse_walk_ind (P : list string -> Prop) :
  P [] ->
  (forall op, is_redirect op = true -> P [op]) ->
  (forall op path rest, is_redirect op = true -> P rest -> P (op :: path :: rest)) ->
  (forall token rest, is_redirect token = false -> P rest -> P (token :: rest)) ->
  forall toks, P toks.
Proof.
  intros Hnil Hlast Hop Hother.
  fix IH 1. intros [|token rest].
  - exact Hnil.
  - destruct (is_redirect token) eqn:E.
    + destruct rest as [|path rest'].
      * apply Hlast, E.
      * apply Hop; [exact E | apply IH].
    + apply Hother; [exact E | apply IH].
Qed.

Lemma is_redirect_cases (token : string) :
  is_redirect token = true -> streq token "<" = true \/
                              (streq token "<" = false /\ streq token ">" = true).
Proof.
  unfold is_redirect. destruct (streq token "<"); cbn; auto.
Qed.

Lemma not_redirect_cases (token : string) :
  is_redirect token = false -> streq token "<" = false /\ streq token ">" = false.
Proof.
  unfold is_redirect. intros H. apply orb_false_iff in H. exact H.
Qed.

(** The value the loop leaves in [run_in_background] when the token list
    ends in an [&] that no redirection takes as its path. *)
Lemma parse_tokens_trailing_amp (fg : Z) (pre : list string) :
  forall p q,
    expects_path pre = false ->
    parse_tokens fg (pre ++ ["&"])%list p = Ok q ->
    command q = command p /\
    run_in_background q =
      (if (fg =? 0) && negb (streq (command p) "echo") then 1
       else run_in_background p).
Proof.
  induction pre as [| op Hop | op path rest Hop IH | token rest Hnot IH]
    using parse_walk_ind; intros p q Hexp Hparse.
  - cbn in Hparse.
    destruct ((fg =? 0) && negb (streq (command p) "echo"));
      inversion Hparse; subst; auto.
  - cbn in Hexp. rewrite Hop in Hexp. discriminate.
  - cbn [expects_path] in Hexp. rewrite Hop in Hexp.
    cbn [app parse_tokens] in Hparse.
    destruct (is_redirect_cases _ Hop) as [E | [E1 E2]].
    + rewrite E in Hparse. unfold strcpy in Hparse.
      destruct (strlen path <? 25); [|discriminate].
      cbn [rbind] in Hparse. apply IH in Hparse; [exact Hparse | exact Hexp].
    + rewrite E1, E2 in Hparse. unfold strcpy in Hparse.
      destruct (strlen path <? 25); [|discriminate].
      cbn [rbind] in Hparse. apply IH in Hparse; [exact Hparse | exact Hexp].
  - cbn [expects_path] in Hexp. rewrite Hnot in Hexp.
    cbn [app parse_tokens] in Hparse.
    destruct (not_redirect_cases _ Hnot) as [E1 E2]. rewrite E1, E2 in Hparse.
    destruct (streq token "&").
    + destruct ((fg =? 0) && negb (streq (command p) "echo")) eqn:Ec.
      * apply IH in Hparse; [|exact Hexp].
        cbn [command set_run_in_background] in Hparse. rewrite Ec in Hparse.
        exact Hparse.
      * apply IH in Hparse; [|exact Hexp]. rewrite Ec in Hparse. exact Hparse.
    + destruct (513 <=? num_args p); [discriminate|].
      unfold strcpy in Hparse. destruct (strlen token <? 20); [|discriminate].
      cbn [rbind] in Hparse. apply IH in Hparse; [exact Hparse | exact Hexp].
Qed.

(** A line that is neither blank nor a comment is parsed by the loop,
    starting from the command name. *)
Lemma parse_line_command (fg : Z) (line : string) (p : parsed) :
  parse_line fg line = Ok p ->
  command p <> "" ->
  exists cmd,
    parse_tokens fg (strtok_all line (" " ++ nl)) (mkParsed cmd [] "" "" 0) = Ok p.
Proof.
  unfold parse_line. intros H Hcmd.
  destruct line as [|c line']; [discriminate|].
  destruct (Ascii.eqb c nl_char).
  { inversion H; subst. now contradiction Hcmd. }
  destruct (strtok_all (String c line') (" " ++ nl)) as [|token rest]; [discriminate|].
  assert (Hgo : (cmd <-r strcpy 20 (Some token);
                 p0 <-r parse_tokens fg (token :: rest) (mkParsed cmd [] "" "" 0);
                 if 513 <=? num_args p0 then Fault IndexOutOfRange else Ok p0) = Ok p).
  { destruct token as [|a token']; [exact H|].
    destruct (Ascii.eqb_spec a "#") as [->|Hne].
    - inversion H; subst. now contradiction Hcmd.
    - destruct a as [[] [] [] [] [] [] [] []]; try exact H. now contradiction Hne. }
  clear H. destruct (strcpy 20 (Some token)) as [cmd|]; [|discriminate].
  cbn [rbind] in Hgo. exists cmd.
  destruct (parse_tokens fg (token :: rest) (mkParsed cmd [] "" "" 0)) as [p0|];
    [|discriminate].
  cbn [rbind] in Hgo. destruct (513 <=? num_args p0); [discriminate|].
  exact Hgo.
Qed.

(** ** Traces without a background announcement *)

Lemma quiet_ret {A : Type} (a : A) : quiet (ret a).
Proof. reflexivity. Qed.

Lemma quiet_stop {A : Type} (o : outcome A) : quiet (stop o).
Proof. reflexivity. Qed.

Lemma quiet_lift {A : Type} (r : result A) : quiet (lift r).
Proof. destruct r; reflexivity. Qed.

Lemma quiet_emit (e : event) : announces_background e = false -> quiet (emit e).
Proof. unfold quiet. cbn. intros ->. reflexivity. Qed.

Lemma quiet_bind {A B : Type} (m : M A) (k : A -> M B) :
  quiet m ->
  (forall a, outcome_of m = Continue a -> quiet (k a)) ->
  quiet (bind m k).
Proof.
  unfold quiet. destruct m as [tr [a | c | | plan | f | w]]; cbn; intros Hm Hk; try exact Hm.
  specialize (Hk a eq_refl). destruct (k a) as [tr' o]. cbn in *.
  rewrite existsb_app, Hm, Hk. reflexivity.
Qed.

Create HintDb quiet.
#[local] Hint Resolve quiet_ret quiet_stop quiet_lift : quiet.

Ltac quiet_step :=
  first
    [ apply quiet_ret
    | apply quiet_stop
    | apply quiet_lift
    | apply quiet_emit; reflexivity
    | apply quiet_bind; [| intros ? ?]
    | match goal with
      | |- quiet (if ?c then _ else _) => destruct c
      | |- quiet (match ?x with _ => _ end) => destruct x
      end ].

Lemma quiet_deliver (sgs : list signal) (st : shell_state) : quiet (deliver sgs st).
Proof.
  revert st. induction sgs as [|sg sgs IH]; intros st; cbn [deliver].
  - auto with quiet.
  - apply quiet_bind; [|intros; apply IH].
    destruct sg; unfold handle, catchSIGINT, catchSIGTSTP; repeat quiet_step.
Qed.

Lemma quiet_exit_loop (os : os_reply) (cs : list Z) : quiet (exit_loop os cs).
Proof.
  induction cs as [|c cs IH]; cbn [exit_loop]; [auto with quiet|].
  apply quiet_bind; [repeat quiet_step | intros; exact IH].
Qed.

Lemma quiet_reap_loop (os : os_reply) (cs : list Z) :
  forall temp st, quiet (reap_loop os temp st cs).
Proof.
  induction cs as [|c cs IH]; intros temp st; cbn [reap_loop]; [auto with quiet|].
  apply quiet_bind; [repeat quiet_step | intros polled _].
  apply quiet_bind; [repeat quiet_step | intros slot _].
  apply quiet_bind; [apply IH | intros; auto with quiet].
Qed.

Lemma quiet_reap (os : os_reply) (st : shell_state) : quiet (reap os st).
Proof.
  unfold reap. apply quiet_bind; [apply quiet_reap_loop | intros; auto with quiet].
Qed.

(** A command whose flag is 0 does not go through the background path. *)
Lemma quiet_dispatch (os : os_reply) (st : shell_state) (p : parsed) :
  run_in_background p = 0 -> quiet (dispatch os st p).
Proof.
  intros Hfg. unfold dispatch. rewrite Hfg. cbn [Z.eqb].
  destruct (streq (command p) "exit").
  { unfold exit_builtin. apply quiet_bind; [apply quiet_exit_loop | intros; auto with quiet]. }
  destruct (streq (command p) "cd").
  { unfold cd_builtin. repeat quiet_step. }
  destruct (streq (command p) "status").
  { unfold status_builtin. repeat quiet_step. }
  unfold launch_foreground, fork_guard. repeat quiet_step.
Qed.

Lemma quiet_no_announcement (tr : list event) :
  existsb announces_background tr = false ->
  forall pid, ~ In (Printf ("background pid is " ++ fmt_d pid ++ nl)) tr.
Proof.
  intros Hq pid Hin.
  assert (Ht : existsb announces_background tr = true).
  { apply existsb_exists. eexists. split; [exact Hin|].
    cbn. destruct (fmt_d pid ++ nl); reflexivity. }
  congruence.
Qed.

(** The handler of the terminal-stop signal flips the mode. *)
Lemma catchSIGTSTP_toggles (st : shell_state) :
  outcome_of (catchSIGTSTP st)
  = Continue (set_fg_only_mode st (if fg_only_mode st =? 0 then 1 else 0)).
Proof.
  unfold catchSIGTSTP. destruct (fg_only_mode st =? 0); reflexivity.
Qed.



(** ** The built-in [exit] *)

(** The system calls of the [exit] loop, slot by slot, when every job it
    waits for ends. *)
Lemma exit_loop_trace (os : os_reply) (cs : list Z) :
  (forall c, In c cs -> 0 < c -> os_job_ends os c = true) ->
  exit_loop os cs =
  (flat_map (fun child => if 0 <? child
                          then [SysKill SIGKILL child; SysWaitpid child 0]
                          else []) cs,
   Continue tt).
Proof.
  induction cs as [|c cs IH]; intros Hends; [reflexivity|].
  cbn [exit_loop flat_map]. rewrite IH by (intros; apply Hends; [right|]; assumption).
  destruct (0 <? c) eqn:Ec; [|reflexivity].
  rewrite (Hends c (or_introl eq_refl)) by (apply Z.ltb_lt, Ec). reflexivity.
Qed.

(** Every [kill] of the loop is addressed to process 9, with a slot of the
    table as the signal number. *)
Lemma exit_loop_kill_target (os : os_reply) (cs : list Z) (pid sig : Z) :
  In (SysKill pid sig) (trace_of (exit_loop os cs)) -> pid = SIGKILL /\ In sig cs.
Proof.
  induction cs as [|c cs IH]; [intros []|].
  cbn [exit_loop]. destruct (exit_loop os cs) as [tr o]. cbn [trace_of fst] in IH.
  destruct (0 <? c); [destruct (os_job_ends os c)|]; cbn; intros H;
    repeat match goal with
           | H : _ \/ _ |- _ => destruct H as [H | H]
           | H : SysKill _ _ = SysKill _ _ |- _ => inversion H; subst; clear H
           | H : SysWaitpid _ _ = SysKill _ _ |- _ => discriminate H
           | H : False |- _ => contradiction
           end; auto;
    try (destruct (IH ltac:(eassumption)) as [? ?]; auto).
Qed.

(** C1 (the code departs from the claim): with the jobs 1234 and 77 in the
    table, [exit] calls [kill(9, 1234)] and [kill(9, 77)], that is, it sends
    the signals numbered 1234 and 77 to process 9.  Neither job is sent
    SIGKILL; the shell then waits, blocking, for each job to end by itself
    before it exits with status 0. *)
Theorem exit_kill_arguments_swapped :
  iteration (os_with 0 None nobody_done) (set_children shell0 [1234; -5; 77])
            ("exit" ++ nl)
  = ([Printf ": "; SysKill 9 1234; SysWaitpid 1234 0;
      SysKill 9 77; SysWaitpid 77 0], Exited 0)
  /\ ~ In (SysKill 1234 SIGKILL)
          (trace_of (iteration (os_with 0 None nobody_done)
                               (set_children shell0 [1234; -5; 77]) ("exit" ++ nl)))
  /\ ~ In (SysKill 77 SIGKILL)
          (trace_of (iteration (os_with 0 None nobody_done)
                               (set_children shell0 [1234; -5; 77]) ("exit" ++ nl))).
Proof.
  split; [reflexivity|].
  split; cbn; intros H; repeat (destruct H as [H | H]; [discriminate H|]); exact H.
Qed.

(** ** The built-in [status] and the reaper *)

(** C7 (the code departs from the claim): [status] as the very first
    command decodes the initial value -5 of [childExitMethod]; the low seven
    bits of -5 are 123, so it prints "terminated by signal 123". *)
Theorem status_before_any_foreground :
  printed (trace_of (iteration (os_with 0 None nobody_done) shell0 ("status" ++ nl)))
  = [": "; "terminated by signal 123" ++ nl]
  /\ WIFEXITED (childExitMethod shell0) = 0
  /\ WIFSIGNALED (childExitMethod shell0) = 1
  /\ WTERMSIG (childExitMethod shell0) = 123.
Proof.
  repeat split; reflexivity.
Qed.

(** C2 (the code departs from the claim): [false] runs in the foreground and
    exits with 1; [sleep 1 &] is started; the first [status] reports
    "exit value 1", and in the same iteration the reaper collects the job,
    whose wait status 0 it stores in the variable [status] reads.  The
    second [status], with no foreground command in between, reports
    "exit value 0". *)
Theorem status_follows_background_job :
  printed (trace_of (run
    [ (os_with 100 (Some 256) nobody_done, "false" ++ nl);
      (os_with 101 None nobody_done, "sleep 1 &" ++ nl);
      (os_with 0 None (done_with 0), "status" ++ nl);
      (os_with 0 None nobody_done, "status" ++ nl) ] shell0))
  = [ ": ";
      ": "; "background pid is 101" ++ nl;
      ": "; "exit value 1" ++ nl;
            "process 101 completed" ++ nl; "exit value 0" ++ nl;
      ": "; "exit value 0" ++ nl ].
Proof.
  reflexivity.
Qed.

(** Both wait-status tests of the reaper fail on a normal exit with a code
    other than 0. *)
Lemma reaper_tests_on_nonzero_exit (status : Z) :
  WIFEXITED status = 1 -> status <> 0 ->
  WIFEXITED (c_ne status 0) = 0 /\ WIFSIGNALED status = 0.
Proof.
  intros Hex Hnz. split.
  - unfold c_ne. apply Z.eqb_neq in Hnz. rewrite Hnz. reflexivity.
  - revert Hex. unfold WIFEXITED, WIFSIGNALED, WTERMSIG.
    destruct (Z.land status 127 =? 0) eqn:E; [|discriminate].
    apply Z.eqb_eq in E. rewrite E. reflexivity.
Qed.

(** C6 (the code departs from the claim): a job that exited with code 1
    (wait status 256) is announced as completed, and its slot is reset, but
    no exit value is printed; the test is made on [childExitMethod != 0]
    instead of [childExitMethod].  Exit code 0 and a terminating signal are
    reported. *)
Theorem reaper_drops_nonzero_exit_value :
  reap (os_with 0 None (done_with 256)) (set_children shell0 [1234])
  = ([SysWaitpid 1234 WNOHANG; Printf ("process 1234 completed" ++ nl)],
     Continue (mkState 0 4242 256 0 0 [-5]))
  /\ (WIFEXITED 256 = 1 /\ WEXITSTATUS 256 = 1)
  /\ printed (trace_of (reap (os_with 0 None (done_with 0)) (set_children shell0 [1234])))
     = ["process 1234 completed" ++ nl; "exit value 0" ++ nl]
  /\ printed (trace_of (reap (os_with 0 None (done_with 15)) (set_children shell0 [1234])))
     = ["process 1234 completed" ++ nl; "term sig was 15" ++ nl].
Proof.
  repeat split; reflexivity.
Qed.

(** The same for any job and any non-zero exit: the reaper prints the
    completion line and nothing about the exit value. *)
Lemma reaper_silent_on_nonzero_exit
    (os : os_reply) (st : shell_state) (pid status : Z) :
  pid <> -5 ->
  os_wait_nohang os pid = Reaped status ->
  WIFEXITED status = 1 -> status <> 0 ->
  printed (trace_of (reap os (set_children st [pid])))
  = ["process " ++ fmt_d pid ++ " completed" ++ nl].
Proof.
  intros Hpid Hpoll Hex Hnz.
  destruct (reaper_tests_on_nonzero_exit _ Hex Hnz) as [T1 T2].
  unfold reap. cbn [children set_children reap_loop].
  apply Z.eqb_neq in Hpid. rewrite Hpid, Hpoll.
  cbn [negb bind emit ret app fst snd set_childExitMethod childExitMethod].
  rewrite Z.eqb_refl, T1, T2. reflexivity.
Qed.

(** ** Redirection operators without a path *)

(** When the token list stops right after a [<] or [>], the loop does not
    come back with a parsed command: [strtok] has returned NULL and
    [strcpy] reads it (or an earlier token already overflowed a buffer). *)
Lemma dangling_redirect_never_parses (fg : Z) (toks : list string) :
  expects_path toks = true ->
  forall p q, parse_tokens fg toks p <> Ok q.
Proof.
  induction toks as [| op Hop | op path rest Hop IH | token rest Hnot IH]
    using parse_walk_ind; intros Hexp p q.
  - discriminate.
  - cbn [parse_tokens].
    destruct (is_redirect_cases _ Hop) as [E | [E1 E2]].
    + rewrite E. discriminate.
    + rewrite E1, E2. discriminate.
  - cbn [expects_path] in Hexp. rewrite Hop in Hexp. cbn [parse_tokens].
    destruct (is_redirect_cases _ Hop) as [E | [E1 E2]].
    + rewrite E. unfold strcpy. destruct (strlen path <? 25); [|discriminate].
      apply IH, Hexp.
    + rewrite E1, E2. unfold strcpy. destruct (strlen path <? 25); [|discriminate].
      apply IH, Hexp.
  - cbn [expects_path] in Hexp. rewrite Hnot in Hexp. cbn [parse_tokens].
    destruct (not_redirect_cases _ Hnot) as [E1 E2]. rewrite E1, E2.
    destruct (streq token "&").
    + destruct ((fg =? 0) && negb (streq (command p) "echo")); apply IH, Hexp.
    + destruct (513 <=? num_args p); [discriminate|].
      unfold strcpy. destruct (strlen token <? 20); [|discriminate].
      apply IH, Hexp.
Qed.

(** C3 (the code departs from the claim): on [cat <] and on [ls >] the
    parser asks [strtok] for the path, gets NULL, and hands it to [strcpy].
    The iteration ends in a null-pointer read right after the prompt; no
    message is printed and no next iteration follows. *)
Theorem dangling_redirect_null_deref :
  iteration (os_with 100 (Some 0) nobody_done) shell0 ("cat <" ++ nl)
    = ([Printf ": "], Crashed NullDeref)
  /\ iteration (os_with 100 (Some 0) nobody_done) shell0 ("ls >" ++ nl)
    = ([Printf ": "], Crashed NullDeref)
  /\ parse_line 0 ("cat <" ++ nl) = Fault NullDeref
  /\ parse_line 0 ("ls >" ++ nl) = Fault NullDeref.
Proof.
  repeat split; reflexivity.
Qed.

(** ** Blank lines and comments *)

Lemma trace_bind_emit {B : Type} (e : event) (k : unit -> M B) :
  trace_of (bind (emit e) k) = e :: trace_of (k tt).
Proof.
  unfold bind, emit, trace_of. destruct (k tt). reflexivity.
Qed.

Lemma trace_bind_prefix {A B : Type} (m : M A) (k : A -> M B) :
  exists rest, trace_of (bind m k) = (trace_of m ++ rest)%list.
Proof.
  destruct m as [tr [a | c | | plan | f | w]]; cbn;
    try (exists []; rewrite app_nil_r; reflexivity).
  destruct (k a) as [tr' o]. exists tr'. reflexivity.
Qed.

Lemma bind_ret_l {A B : Type} (a : A) (k : A -> M B) : bind (ret a) k = k a.
Proof.
  unfold bind, ret. destruct (k a). reflexivity.
Qed.

(** With an empty [command], the if / else-if chain ends in its last
    branch: a blank line or a comment forks. *)
Lemma blank_line_trace (os : os_reply) (st : shell_state) :
  os_signals os = [] ->
  exists rest,
    trace_of (iteration os st nl) = Printf ": " :: SysFork (os_fork os) :: rest.
Proof.
  intros Hsig. unfold iteration. rewrite trace_bind_emit, Hsig.
  cbn [deliver]. change (2048 <=? strlen nl) with false. cbv iota.
  rewrite !bind_ret_l.
  change (parse_line (fg_only_mode st) nl) with (Ok blank_parsed).
  cbn [lift]. rewrite bind_ret_l. cbn [args blank_parsed expand_args lift].
  rewrite bind_ret_l.
  change (dispatch os st (set_args blank_parsed []))
    with (launch_foreground os st (set_args blank_parsed [])).
  destruct (trace_bind_prefix (launch_foreground os st (set_args blank_parsed []))
              (fun st1 => reap os st1)) as [rest Hrest].
  rewrite Hrest. unfold launch_foreground at 1. rewrite trace_bind_emit.
  eexists. cbn [app]. reflexivity.
Qed.

(** C4 (the code departs from the claim): a blank line and a comment line
    both fork a child and wait for it, and the wait status of that child
    (here 11, a segmentation fault) replaces [childExitMethod]; the next
    [status] reports it. *)
Theorem blank_line_forks :
  iteration (os_with 100 (Some 11) nobody_done) shell0 nl
    = ([Printf ": "; SysFork 100; SysWaitpid 100 0],
       Continue (mkState 0 100 11 0 11 []))
  /\ iteration (os_with 100 (Some 11) nobody_done) shell0 ("# a comment" ++ nl)
    = ([Printf ": "; SysFork 100; SysWaitpid 100 0],
       Continue (mkState 0 100 11 0 11 []))
  /\ printed (trace_of (run
       [ (os_with 100 (Some 11) nobody_done, nl);
         (os_with 0 None nobody_done, "status" ++ nl) ] shell0))
     = [": "; ": "; "terminated by signal 11" ++ nl].
Proof.
  repeat split; reflexivity.
Qed.

(** * Further properties of the code *)

(** ** The tokenizing loop, in general *)

(** Whatever is kept by the four updates of the loop body is kept by the
    loop. *)
Lemma parse_tokens_preserves (fg : Z) (I : parsed -> Prop) :
  (forall p f, I p -> strlen f < 25 -> I (set_input_file p f)) ->
  (forall p f, I p -> strlen f < 25 -> I (set_output_file p f)) ->
  (forall p, I p -> fg = 0 -> streq (command p) "echo" = false ->
             I (set_run_in_background p 1)) ->
  (forall p a, I p -> num_args p < 513 -> strlen a < 20 ->
               I (set_args p (args p ++ [a])%list)) ->
  forall toks p q, parse_tokens fg toks p = Ok q -> I p -> I q.
Proof.
  intros Hin Hout Hbg Harg.
  assert (Hcopy : forall cap src f, strcpy cap (Some src) = Ok f ->
                                    f = src /\ strlen src < cap).
  { intros cap src f. unfold strcpy. destruct (strlen src <? cap) eqn:E; [|discriminate].
    intros H. inversion H; subst. split; [reflexivity | apply Z.ltb_lt, E]. }
  induction toks as [| op Hop | op path rest Hop IH | token rest Hnot IH]
    using parse_walk_ind; intros p q Hparse Hp.
  - inversion Hparse; subst. exact Hp.
  - cbn [parse_tokens] in Hparse.
    destruct (is_redirect_cases _ Hop) as [E | [E1 E2]].
    + rewrite E in Hparse. discriminate.
    + rewrite E1, E2 in Hparse. discriminate.
  - cbn [parse_tokens] in Hparse.
    destruct (is_redirect_cases _ Hop) as [E | [E1 E2]].
    + rewrite E in Hparse.
      destruct (strcpy 25 (Some path)) as [f|] eqn:Ef; [|discriminate].
      destruct (Hcopy _ _ _ Ef) as [-> Hlen]. cbn [rbind] in Hparse.
      eapply IH; [exact Hparse | apply Hin; assumption].
    + rewrite E1, E2 in Hparse.
      destruct (strcpy 25 (Some path)) as [f|] eqn:Ef; [|discriminate].
      destruct (Hcopy _ _ _ Ef) as [-> Hlen]. cbn [rbind] in Hparse.
      eapply IH; [exact Hparse | apply Hout; assumption].
  - cbn [parse_tokens] in Hparse.
    destruct (not_redirect_cases _ Hnot) as [E1 E2]. rewrite E1, E2 in Hparse.
    destruct (streq token "&").
    + destruct ((fg =? 0) && negb (streq (command p) "echo")) eqn:Ec.
      * apply andb_true_iff in Ec as [Efg Eecho].
        apply Z.eqb_eq in Efg. apply negb_true_iff in Eecho.
        eapply IH; [exact Hparse | apply Hbg; assumption].
      * eapply IH; [exact Hparse | exact Hp].
    + destruct (513 <=? num_args p) eqn:En; [discriminate|].
      apply Z.leb_gt in En.
      destruct (strcpy 20 (Some token)) as [a|] eqn:Ea; [|discriminate].
      destruct (Hcopy _ _ _ Ea) as [-> Hlen]. cbn [rbind] in Hparse.
      eapply IH; [exact Hparse | apply Harg; assumption].
Qed.

(** What [parse_line] does on a line that yields a command: the copy of
    the first token into [command], the loop, the bound on [num_args]. *)
Lemma parse_line_steps (fg : Z) (line : string) (p : parsed) :
  parse_line fg line = Ok p ->
  command p <> "" ->
  exists token rest,
    strtok_all line (" " ++ nl) = token :: rest /\
    strlen token < 20 /\
    parse_tokens fg (token :: rest) (mkParsed token [] "" "" 0) = Ok p /\
    num_args p < 513.
Proof.
  unfold parse_line. intros H Hcmd.
  destruct line as [|c line']; [discriminate|].
  destruct (Ascii.eqb c nl_char).
  { inversion H; subst. now contradiction Hcmd. }
  destruct (strtok_all (String c line') (" " ++ nl)) as [|token rest]; [discriminate|].
  assert (Hgo : (cmd <-r strcpy 20 (Some token);
                 p0 <-r parse_tokens fg (token :: rest) (mkParsed cmd [] "" "" 0);
                 if 513 <=? num_args p0 then Fault IndexOutOfRange else Ok p0) = Ok p).
  { destruct token as [|a token']; [exact H|].
    destruct (Ascii.eqb_spec a "#") as [->|Hne].
    - inversion H; subst. now contradiction Hcmd.
    - destruct a as [[] [] [] [] [] [] [] []]; try exact H. now contradiction Hne. }
  clear H. unfold strcpy in Hgo.
  destruct (strlen token <? 20) eqn:Elen; [|discriminate].
  cbn [rbind] in Hgo.
  destruct (parse_tokens fg (token :: rest) (mkParsed token [] "" "" 0)) as [p0|] eqn:Ep;
    [|discriminate].
  cbn [rbind] in Hgo. destruct (513 <=? num_args p0) eqn:En; [discriminate|].
  inversion Hgo; subst p0.
  exists token, rest. repeat split; try assumption.
  - apply Z.ltb_lt, Elen.
  - apply Z.leb_gt, En.
Qed.

(** A line that is blank or a comment leaves [command] empty. *)
Lemma parse_line_no_command (fg : Z) (line : string) (p : parsed) :
  parse_line fg line = Ok p -> command p = "" -> p = blank_parsed.
Proof.
  intros H Hcmd.
  destruct (string_dec (command p) "") as [_|Hne]; [|contradiction].
  unfold parse_line in H.
  destruct line as [|c line']; [discriminate|].
  destruct (Ascii.eqb c nl_char); [inversion H; reflexivity|].
  destruct (strtok_all (String c line') (" " ++ nl)) as [|token rest] eqn:Et;
    [discriminate|].
  assert (Htok : token <> "").
  { apply (strtok_from_nonempty (" " ++ nl) (String c line') "").
    unfold strtok_all in Et. rewrite Et. left. reflexivity. }
  assert (Hgo : (cmd <-r strcpy 20 (Some token);
                 p0 <-r parse_tokens fg (token :: rest) (mkParsed cmd [] "" "" 0);
                 if 513 <=? num_args p0 then Fault IndexOutOfRange else Ok p0) = Ok p
                \/ Ok blank_parsed = Ok p).
  { destruct token as [|a token']; [now contradiction Htok|].
    destruct (Ascii.eqb_spec a "#") as [->|Hne].
    - right. exact H.
    - left. destruct a as [[] [] [] [] [] [] [] []]; try exact H. now contradiction Hne. }
  destruct Hgo as [Hgo | Hgo]; [|inversion Hgo; reflexivity].
  exfalso. unfold strcpy in Hgo.
  destruct (strlen token <? 20); [|discriminate]. cbn [rbind] in Hgo.
  destruct (parse_tokens fg (token :: rest) (mkParsed token [] "" "" 0)) as [p0|] eqn:Ep;
    [|discriminate].
  cbn [rbind] in Hgo. destruct (513 <=? num_args p0); [discriminate|].
  inversion Hgo; subst p0.
  assert (Hc : command p = token).
  { apply (parse_tokens_preserves fg (fun x => command x = token)) in Ep; auto. }
  congruence.
Qed.

(** X1: whatever the line, the background flag comes out as 0 or 1, and it
    is 1 only if foreground-only mode is off and the command is not
    [echo]. *)
Theorem background_flag_sound (fg : Z) (line : string) (p : parsed) :
  parse_line fg line = Ok p ->
  (run_in_background p = 0 \/ run_in_background p = 1) /\
  (run_in_background p = 1 -> fg = 0 /\ command p <> "echo").
Proof.
  intros H.
  destruct (string_dec (command p) "") as [Hc | Hc].
  { rewrite (parse_line_no_command _ _ _ H Hc). cbn. split; [auto | discriminate]. }
  destruct (parse_line_steps _ _ _ H Hc) as (token & rest & _ & _ & Hloop & _).
  apply (parse_tokens_preserves fg
           (fun x => command x = token /\
                     (run_in_background x = 0 \/
                      (run_in_background x = 1 /\ fg = 0 /\ streq token "echo" = false))))
    in Hloop.
  - destruct Hloop as [Hcmd [H0 | (H1 & Hfg & He)]].
    + split; [auto | rewrite H0; discriminate].
    + split; [auto|]. intros _. split; [exact Hfg|].
      rewrite Hcmd. intros ->. discriminate.
  - intros x f [? ?] _. cbn. auto.
  - intros x f [? ?] _. cbn. auto.
  - intros x [Hx _] Hfg He. cbn. rewrite Hx in He. auto.
  - intros x a [? ?] _ _. cbn. auto.
  - cbn. auto.
Qed.

Lemma background_flag_sound_witness :
  (run_in_background (mkParsed "echo" ["echo"; "hi"] "" "" 0) = 0 \/
   run_in_background (mkParsed "echo" ["echo"; "hi"] "" "" 0) = 1) /\
  (run_in_background (mkParsed "echo" ["echo"; "hi"] "" "" 0) = 1 ->
   0 = 0 /\ command (mkParsed "echo" ["echo"; "hi"] "" "" 0) <> "echo").
Proof.
  apply (background_flag_sound 0 ("echo hi &" ++ nl)). reflexivity.
Defined.

(** Once set, the background flag stays set through the rest of the loop;
    and where the mode or the command forbids it, the loop leaves the flag
    alone. *)
Lemma parse_tokens_flag (fg : Z) (toks : list string) (p q : parsed) :
  parse_tokens fg toks p = Ok q ->
  command q = command p /\
  (run_in_background p = 1 -> run_in_background q = 1) /\
  ((fg =? 0) && negb (streq (command p) "echo") = false ->
   run_in_background q = run_in_background p).
Proof.
  intros H.
  apply (parse_tokens_preserves fg
           (fun x => command x = command p /\
                     (run_in_background p = 1 -> run_in_background x = 1) /\
                     ((fg =? 0) && negb (streq (command p) "echo") = false ->
                      run_in_background x = run_in_background p))) in H.
  - exact H.
  - intros x f (? & ? & ?) _. cbn. auto.
  - intros x f (? & ? & ?) _. cbn. auto.
  - intros x (Hx & ? & ?) Hfg He. cbn. split; [exact Hx|]. split; [reflexivity|].
    rewrite Hx in He. rewrite Hfg, He. discriminate.
  - intros x a (? & ? & ?) _ _. cbn. auto.
  - auto.
Qed.

Lemma parse_tokens_amp_anywhere (fg : Z) (post pre : list string) :
  forall p q,
    expects_path pre = false ->
    parse_tokens fg (pre ++ "&" :: post)%list p = Ok q ->
    command q = command p /\
    run_in_background q =
      (if (fg =? 0) && negb (streq (command p) "echo") then 1
       else run_in_background p).
Proof.
  induction pre as [| op Hop | op path rest Hop IH | token rest Hnot IH]
    using parse_walk_ind; intros p q Hexp Hparse.
  - cbn [app parse_tokens] in Hparse. change (streq "&" "<") with false in Hparse.
    change (streq "&" ">") with false in Hparse. change (streq "&" "&") with true in Hparse.
    cbv iota in Hparse.
    destruct ((fg =? 0) && negb (streq (command p) "echo")) eqn:Ec.
    + destruct (parse_tokens_flag _ _ _ _ Hparse) as (Hc & H1 & _).
      split; [exact Hc | apply H1; reflexivity].
    + destruct (parse_tokens_flag _ _ _ _ Hparse) as (Hc & _ & H0).
      split; [exact Hc | apply H0, Ec].
  - cbn in Hexp. rewrite Hop in Hexp. discriminate.
  - cbn [expects_path] in Hexp. rewrite Hop in Hexp.
    cbn [app parse_tokens] in Hparse.
    destruct (is_redirect_cases _ Hop) as [E | [E1 E2]].
    + rewrite E in Hparse. unfold strcpy in Hparse.
      destruct (strlen path <? 25); [|discriminate].
      cbn [rbind] in Hparse. apply IH in Hparse; [exact Hparse | exact Hexp].
    + rewrite E1, E2 in Hparse. unfold strcpy in Hparse.
      destruct (strlen path <? 25); [|discriminate].
      cbn [rbind] in Hparse. apply IH in Hparse; [exact Hparse | exact Hexp].
  - cbn [expects_path] in Hexp. rewrite Hnot in Hexp.
    cbn [app parse_tokens] in Hparse.
    destruct (not_redirect_cases _ Hnot) as [E1 E2]. rewrite E1, E2 in Hparse.
    destruct (streq token "&").
    + destruct ((fg =? 0) && negb (streq (command p) "echo")) eqn:Ec.
      * apply IH in Hparse; [|exact Hexp].
        cbn [command set_run_in_background] in Hparse. rewrite Ec in Hparse.
        exact Hparse.
      * apply IH in Hparse; [|exact Hexp]. rewrite Ec in Hparse. exact Hparse.
    + destruct (513 <=? num_args p); [discriminate|].
      unfold strcpy in Hparse. destruct (strlen token <? 20); [|discriminate].
      cbn [rbind] in Hparse. apply IH in Hparse; [exact Hparse | exact Hexp].
Qed.

Lemma parse_tokens_split_amp (fg : Z) (post pre : list string) :
  forall p r,
    expects_path pre = false ->
    parse_tokens fg (pre ++ "&" :: post)%list p = Ok r ->
    exists q,
      parse_tokens fg pre p = Ok q /\
      parse_tokens fg post
        (if (fg =? 0) && negb (streq (command p) "echo")
         then set_run_in_background q 1 else q) = Ok r.
Proof.
  induction pre as [| op Hop | op path rest Hop IH | token rest Hnot IH]
    using parse_walk_ind; intros p r Hexp Hparse.
  - cbn [app parse_tokens] in Hparse. change (streq "&" "<") with false in Hparse.
    change (streq "&" ">") with false in Hparse. change (streq "&" "&") with true in Hparse.
    cbv iota in Hparse. exists p. split; [reflexivity|].
    destruct ((fg =? 0) && negb (streq (command p) "echo")); exact Hparse.
  - cbn in Hexp. rewrite Hop in Hexp. discriminate.
  - cbn [expects_path] in Hexp. rewrite Hop in Hexp.
    cbn [app parse_tokens] in Hparse |- *.
    destruct (is_redirect_cases _ Hop) as [E | [E1 E2]].
    + rewrite E in *. unfold strcpy in *.
      destruct (strlen path <? 25); [|discriminate].
      cbn [rbind] in *. exact (IH _ _ Hexp Hparse).
    + rewrite E1, E2 in *. unfold strcpy in *.
      destruct (strlen path <? 25); [|discriminate].
      cbn [rbind] in *. exact (IH _ _ Hexp Hparse).
  - cbn [expects_path] in Hexp. rewrite Hnot in Hexp.
    cbn [app parse_tokens] in Hparse |- *.
    destruct (not_redirect_cases _ Hnot) as [E1 E2]. rewrite E1, E2 in *.
    destruct (streq token "&").
    + destruct ((fg =? 0) && negb (streq (command p) "echo")) eqn:Ec.
      * destruct (IH _ _ Hexp Hparse) as (q & Hq & Hr).
        cbn [command set_run_in_background] in Hr. rewrite Ec in Hr. eauto.
      * destruct (IH _ _ Hexp Hparse) as (q & Hq & Hr). rewrite Ec in Hr. eauto.
    + destruct (513 <=? num_args p); [discriminate|].
      unfold strcpy in *. destruct (strlen token <? 20); [|discriminate].
      cbn [rbind] in *. exact (IH _ _ Hexp Hparse).
Qed.

(** X3: the [&] does not have to be the last token.  Wherever it stands,
    as long as no [<] or [>] before it takes it as a path, the command is
    marked for background exactly when foreground-only mode is off and the
    command is not [echo]; and the tokens after it are parsed as usual: the
    parsed command is what the loop makes of those tokens, starting from
    what it had made of the tokens before the [&], with the flag set. *)
Theorem amp_anywhere_marks_background
    (fg : Z) (line : string) (pre post : list string) (p : parsed) :
  strtok_all line (" " ++ nl) = (pre ++ "&" :: post)%list ->
  expects_path pre = false ->
  parse_line fg line = Ok p ->
  command p <> "" ->
  run_in_background p =
    (if (fg =? 0) && negb (streq (command p) "echo") then 1 else 0) /\
  exists q,
    parse_tokens fg pre (mkParsed (command p) [] "" "" 0) = Ok q /\
    parse_tokens fg post
      (if (fg =? 0) && negb (streq (command p) "echo")
       then set_run_in_background q 1 else q) = Ok p.
Proof.
  intros Htoks Hexp Hparse Hcmd.
  destruct (parse_line_steps _ _ _ Hparse Hcmd) as (token & rest & Ht & _ & Hloop & _).
  rewrite <- Ht, Htoks in Hloop.
  destruct (parse_tokens_amp_anywhere _ _ _ _ _ Hexp Hloop) as [Hc Hr].
  cbn [command run_in_background] in Hc, Hr. rewrite Hc in *.
  split; [exact Hr|].
  exact (parse_tokens_split_amp _ _ _ _ _ Hexp Hloop).
Qed.

Lemma amp_anywhere_marks_background_witness :
  run_in_background (mkParsed "sleep" ["sleep"; "5"; "now"] "" "out" 1) =
    (if (0 =? 0)
        && negb (streq (command (mkParsed "sleep" ["sleep"; "5"; "now"] "" "out" 1)) "echo")
     then 1 else 0) /\
  exists q,
    parse_tokens 0 ["sleep"; "5"]
      (mkParsed (command (mkParsed "sleep" ["sleep"; "5"; "now"] "" "out" 1)) [] "" "" 0)
      = Ok q /\
    parse_tokens 0 ["now"; ">"; "out"]
      (if (0 =? 0)
          && negb (streq (command (mkParsed "sleep" ["sleep"; "5"; "now"] "" "out" 1)) "echo")
       then set_run_in_background q 1 else q)
      = Ok (mkParsed "sleep" ["sleep"; "5"; "now"] "" "out" 1).
Proof.
  apply (amp_anywhere_marks_background 0 ("sleep 5 & now > out" ++ nl)
           ["sleep"; "5"] ["now"; ">"; "out"]).
  - reflexivity.
  - reflexivity.
  - reflexivity.
  - cbn. discriminate.
Defined.

Lemma set_args_same (p : parsed) : set_args p (args p) = p.
Proof. destruct p. reflexivity. Qed.

Lemma plain_token_cases (token : string) :
  plain_token token = true ->
  streq token "<" = false /\ streq token ">" = false /\ streq token "&" = false.
Proof.
  unfold plain_token. intros H.
  apply andb_true_iff in H as [H H3]. apply andb_true_iff in H as [H1 H2].
  rewrite negb_true_iff in H1, H2, H3. auto.
Qed.

(** X4: on tokens none of which is [<], [>] or [&], each shorter than 20
    bytes, and with room left in [args], the loop cannot fail: it appends
    the tokens to [args] in order and touches nothing else. *)
Theorem plain_tokens_become_args (fg : Z) (toks : list string) :
  forall p,
    forallb plain_token toks = true ->
    Forall (fits 20) toks ->
    num_args p + Z.of_nat (List.length toks) <= 513 ->
    parse_tokens fg toks p = Ok (set_args p (args p ++ toks)%list).
Proof.
  induction toks as [|token rest IH]; intros p Hplain Hfit Hroom.
  - cbn [parse_tokens]. rewrite app_nil_r, set_args_same. reflexivity.
  - cbn [forallb] in Hplain. apply andb_true_iff in Hplain as [Ht Hrest].
    destruct (plain_token_cases _ Ht) as (E1 & E2 & E3).
    inversion Hfit as [|? ? Hlen Hfit']; subst.
    cbn [parse_tokens]. rewrite E1, E2, E3.
    cbn [List.length] in Hroom.
    destruct (513 <=? num_args p) eqn:En; [apply Z.leb_le in En; lia|].
    unfold strcpy. unfold fits in Hlen. apply Z.ltb_lt in Hlen. rewrite Hlen.
    cbn [rbind]. rewrite IH.
    + cbn [set_args command args input_file output_file run_in_background].
      rewrite <- app_assoc. reflexivity.
    + exact Hrest.
    + exact Hfit'.
    + unfold num_args in *. cbn [set_args args]. rewrite length_app. cbn [List.length]. lia.
Qed.

Lemma plain_tokens_become_args_witness :
  parse_tokens 1 ["ls"; "-l"; "/tmp"] (mkParsed "ls" [] "" "" 0)
  = Ok (set_args (mkParsed "ls" [] "" "" 0) ([] ++ ["ls"; "-l"; "/tmp"])%list).
Proof.
  apply (plain_tokens_become_args 1 ["ls"; "-l"; "/tmp"] (mkParsed "ls" [] "" "" 0)).
  - reflexivity.
  - repeat constructor.
  - cbn. lia.
Defined.

(** X5: a line whose tokens stop right after a [<] or [>] never yields a
    command: unless the line is blank or a comment, parsing it ends in a
    fault. *)
Theorem dangling_redirect_no_command (fg : Z) (line : string) (p : parsed) :
  expects_path (strtok_all line (" " ++ nl)) = true ->
  parse_line fg line = Ok p ->
  p = blank_parsed.
Proof.
  intros Hexp H.
  destruct (string_dec (command p) "") as [Hc | Hc].
  - exact (parse_line_no_command _ _ _ H Hc).
  - destruct (parse_line_steps _ _ _ H Hc) as (token & rest & Ht & _ & Hloop & _).
    rewrite Ht in Hexp.
    exfalso. exact (dangling_redirect_never_parses fg _ Hexp _ _ Hloop).
Qed.

Lemma dangling_redirect_no_command_witness :
  mkParsed "" [] "" "" 0 = blank_parsed.
Proof.
  apply (dangling_redirect_no_command 0 ("#sort <" ++ nl)); reflexivity.
Defined.

Lemma parse_tokens_last_redirect (fg : Z) (op path : string) (pre : list string) :
  is_redirect op = true ->
  forall p q,
    expects_path pre = false ->
    parse_tokens fg (pre ++ [op; path])%list p = Ok q ->
    (streq op "<" = true -> input_file q = path) /\
    (streq op "<" = false -> output_file q = path).
Proof.
  intros Hredir.
  induction pre as [| op' Hop | op' path' rest Hop IH | token rest Hnot IH]
    using parse_walk_ind; intros p q Hexp Hparse.
  - cbn [app parse_tokens] in Hparse.
    destruct (is_redirect_cases _ Hredir) as [E | [E1 E2]].
    + rewrite E in Hparse. unfold strcpy in Hparse.
      destruct (strlen path <? 25); [|discriminate].
      inversion Hparse; subst. cbn. split; [reflexivity | congruence].
    + rewrite E1, E2 in Hparse. unfold strcpy in Hparse.
      destruct (strlen path <? 25); [|discriminate].
      inversion Hparse; subst. cbn. split; [congruence | reflexivity].
  - cbn in Hexp. rewrite Hop in Hexp. discriminate.
  - cbn [expects_path] in Hexp. rewrite Hop in Hexp.
    cbn [app parse_tokens] in Hparse.
    destruct (is_redirect_cases _ Hop) as [E | [E1 E2]].
    + rewrite E in Hparse. unfold strcpy in Hparse.
      destruct (strlen path' <? 25); [|discriminate].
      cbn [rbind] in Hparse. exact (IH _ _ Hexp Hparse).
    + rewrite E1, E2 in Hparse. unfold strcpy in Hparse.
      destruct (strlen path' <? 25); [|discriminate].
      cbn [rbind] in Hparse. exact (IH _ _ Hexp Hparse).
  - cbn [expects_path] in Hexp. rewrite Hnot in Hexp.
    cbn [app parse_tokens] in Hparse.
    destruct (not_redirect_cases _ Hnot) as [E1 E2]. rewrite E1, E2 in Hparse.
    destruct (streq token "&").
    + destruct ((fg =? 0) && negb (streq (command p) "echo"));
        exact (IH _ _ Hexp Hparse).
    + destruct (513 <=? num_args p); [discriminate|].
      unfold strcpy in Hparse. destruct (strlen token <? 20); [|discriminate].
      cbn [rbind] in Hparse. exact (IH _ _ Hexp Hparse).
Qed.

(** X6: when a line ends in a redirection operator and its path, that path
    is the one the command uses, whatever redirections came before it; the
    token after the operator is taken as the path even if it is [&], [<]
    or [>]. *)
Theorem last_redirection_wins
    (fg : Z) (line : string) (pre : list string) (op path : string) (p : parsed) :
  strtok_all line (" " ++ nl) = (pre ++ [op; path])%list ->
  is_redirect op = true ->
  expects_path pre = false ->
  parse_line fg line = Ok p ->
  command p <> "" ->
  (op = "<" -> input_file p = path) /\ (op = ">" -> output_file p = path).
Proof.
  intros Htoks Hop Hexp Hparse Hcmd.
  destruct (parse_line_steps _ _ _ Hparse Hcmd) as (token & rest & Ht & _ & Hloop & _).
  rewrite <- Ht, Htoks in Hloop.
  destruct (parse_tokens_last_redirect _ _ _ _ Hop _ _ Hexp Hloop) as [Hi Ho].
  split; intros ->; [apply Hi | apply Ho]; reflexivity.
Qed.

Lemma last_redirection_wins_witness :
  (">" = "<" -> input_file (mkParsed "ls" ["ls"] "" "b" 0) = "b") /\
  (">" = ">" -> output_file (mkParsed "ls" ["ls"] "" "b" 0) = "b").
Proof.
  apply (last_redirection_wins 0 ("ls > a > b" ++ nl) ["ls"; ">"; "a"] ">" "b").
  - reflexivity.
  - reflexivity.
  - reflexivity.
  - reflexivity.
  - cbn. discriminate.
Defined.

(** ** The expander, in general *)

(** X7: expansion keeps the number of arguments, and an argument without
    [$$] (a single [$] included) comes out as it went in. *)
Theorem expand_args_keeps_shape (pid : Z) (a : list string) :
  forall a',
    expand_args pid a = Ok a' ->
    List.length a' = List.length a /\
    Forall2 (fun x y => strstr x "$$" = false -> y = x) a a'.
Proof.
  induction a as [|x a IH]; intros a' H.
  - inversion H; subst. split; [reflexivity | constructor].
  - cbn [expand_args] in H.
    destruct (expand_arg pid x) as [y|] eqn:Ex; [|discriminate].
    cbn [rbind] in H.
    destruct (expand_args pid a) as [ys|] eqn:Ea; [|discriminate].
    cbn [rbind] in H. inversion H; subst.
    destruct (IH ys eq_refl) as [Hlen Hall].
    split; [cbn; congruence|].
    constructor; [|exact Hall].
    intros Hno. unfold expand_arg in Ex. rewrite Hno in Ex. congruence.
Qed.

Lemma expand_args_keeps_shape_witness :
  List.length ["echo"; "a$b"; "x4242"] = List.length ["echo"; "a$b"; "x$$"] /\
  Forall2 (fun x y => strstr x "$$" = false -> y = x)
          ["echo"; "a$b"; "x$$"] ["echo"; "a$b"; "x4242"].
Proof.
  apply (expand_args_keeps_shape 4242 ["echo"; "a$b"; "x$$"]). reflexivity.
Defined.

Lemma strtok_from_all_dollars (s : string) :
  all_dollars s = true -> strtok_from "$$" "" s = [].
Proof.
  induction s as [|c s IH]; [reflexivity|].
  cbn [all_dollars]. intros H. apply andb_true_iff in H as [Hc Hs].
  cbn [strtok_from]. rewrite is_delim_dollar, Hc. exact (IH Hs).
Qed.

(** X8: an argument made of three or more [$] and nothing else makes
    [strtok] return NULL; the [%s] of [sprintf] prints it as "(null)", so
    the argument becomes "(null)" followed by the process id. *)
Theorem expand_all_dollars_prints_null (pid : Z) (arg : string) :
  all_dollars arg = true ->
  3 <= strlen arg ->
  fits 20 ("(null)" ++ fmt_d pid) ->
  expand_arg pid arg = Ok ("(null)" ++ fmt_d pid).
Proof.
  intros Hall Hlen Hfit. unfold expand_arg, strtok, strtok_all.
  rewrite (strtok_from_all_dollars _ Hall).
  destruct arg as [|c1 [|c2 [|c3 rest]]];
    try (unfold strlen in Hlen; cbn in Hlen; lia).
  cbn [all_dollars] in Hall.
  apply andb_true_iff in Hall as [H1 Hall]. apply andb_true_iff in Hall as [H2 _].
  apply Ascii.eqb_eq in H1, H2. subst c1 c2.
  change (strstr (String "$" (String "$" (String c3 rest))) "$$") with true.
  change (streq (String "$" (String "$" (String c3 rest))) "$$") with false.
  cbn [hd_error]. apply sprintf_fits, Hfit.
Qed.

Lemma expand_all_dollars_prints_null_witness :
  expand_arg 4242 "$$$" = Ok ("(null)" ++ fmt_d 4242).
Proof.
  apply (expand_all_dollars_prints_null 4242 "$$$");
    [reflexivity | cbn; lia | reflexivity].
Defined.

Lemma strtok_from_skip_dollars (s : string) :
  strtok_from "$$" "" s = strtok_from "$$" "" (skip_dollars s).
Proof.
  induction s as [|c s IH]; [reflexivity|].
  cbn [skip_dollars]. destruct (Ascii.eqb c "$") eqn:Ec; [|reflexivity].
  cbn [strtok_from]. rewrite is_delim_dollar, Ec. exact IH.
Qed.

Lemma strtok_from_no_dollar (s : string) :
  forall cur,
    has_dollar s = false -> cur ++ s <> "" ->
    strtok_from "$$" cur s = [cur ++ s].
Proof.
  induction s as [|c s IH]; intros cur Hd Hne.
  - rewrite append_empty_r in *. cbn. destruct cur; [congruence | reflexivity].
  - cbn [has_dollar] in Hd. apply orb_false_iff in Hd as [Hc Hs].
    cbn [strtok_from]. rewrite is_delim_dollar, Hc.
    rewrite IH; [rewrite append_assoc; reflexivity | exact Hs |].
    rewrite append_assoc. cbn. destruct cur; cbn; discriminate.
Qed.

Lemma before_dollar_no_dollar (s : string) :
  has_dollar s = false -> before_dollar s = s.
Proof.
  induction s as [|c s IH]; [reflexivity|].
  cbn [has_dollar before_dollar]. intros H. apply orb_false_iff in H as [Hc Hs].
  rewrite Hc, (IH Hs). reflexivity.
Qed.

Lemma before_dollar_free (s : string) : has_dollar (before_dollar s) = false.
Proof.
  induction s as [|c s IH]; [reflexivity|].
  cbn [before_dollar]. destruct (Ascii.eqb c "$") eqn:Ec; [reflexivity|].
  cbn [has_dollar]. rewrite Ec, IH. reflexivity.
Qed.

Lemma skip_dollars_head (s : string) :
  all_dollars s = false ->
  exists c rest, skip_dollars s = String c rest /\ Ascii.eqb c "$" = false.
Proof.
  induction s as [|c s IH]; [discriminate|].
  cbn [all_dollars skip_dollars]. destruct (Ascii.eqb c "$") eqn:Ec.
  - cbn [andb]. exact IH.
  - intros _. exists c, s. auto.
Qed.

(** The token [strtok] hands out first, for any argument that holds more
    than [$] characters. *)
Lemma strtok_first_segment (s : string) :
  all_dollars s = false ->
  hd_error (strtok_from "$$" "" s) = Some (first_segment s).
Proof.
  intros Hall. unfold first_segment. rewrite strtok_from_skip_dollars.
  destruct (skip_dollars_head _ Hall) as (c & rest & -> & Hc).
  destruct (has_dollar (String c rest)) eqn:Hd.
  - rewrite strtok_from_dollar; [reflexivity | exact Hd |].
    cbn. rewrite Hc. discriminate.
  - rewrite strtok_from_no_dollar; [|exact Hd | discriminate].
    rewrite (before_dollar_no_dollar _ Hd). reflexivity.
Qed.

Lemma all_dollars_not_pair (s : string) : all_dollars s = false -> streq s "$$" = false.
Proof.
  intros H. unfold streq. destruct (String.eqb_spec s "$$") as [-> |]; [discriminate | reflexivity].
Qed.

(** X9: an argument that contains [$$] and more than [$] characters is
    replaced by its first stretch free of [$] (the leading [$] skipped)
    followed by the process id, when that fits the buffer.  Everything
    after that stretch is dropped, a further [$$] included: no [$] and no
    second process id comes out. *)
Theorem expand_takes_first_segment (pid : Z) (arg : string) :
  strstr arg "$$" = true ->
  all_dollars arg = false ->
  fits 20 (first_segment arg ++ fmt_d pid) ->
  expand_arg pid arg = Ok (first_segment arg ++ fmt_d pid) /\
  has_dollar (first_segment arg) = false.
Proof.
  intros Hs Hall Hfit. split; [|apply before_dollar_free].
  unfold expand_arg, strtok, strtok_all.
  rewrite Hs, (all_dollars_not_pair _ Hall), (strtok_first_segment _ Hall).
  apply sprintf_fits, Hfit.
Qed.

Lemma expand_takes_first_segment_witness :
  expand_arg 4242 "$a$$b$$" = Ok (first_segment "$a$$b$$" ++ fmt_d 4242) /\
  has_dollar (first_segment "$a$$b$$") = false.
Proof.
  apply (expand_takes_first_segment 4242 "$a$$b$$"); reflexivity.
Defined.

(** ** Working with traces and outcomes *)

Lemma bind_continue {A B : Type} (tr : list event) (a : A) (k : A -> M B) :
  bind (tr, Continue a) k = ((tr ++ trace_of (k a))%list, outcome_of (k a)).
Proof.
  unfold bind, trace_of, outcome_of. destruct (k a). reflexivity.
Qed.

Lemma bind_emit {B : Type} (e : event) (k : unit -> M B) :
  bind (emit e) k = (e :: trace_of (k tt), outcome_of (k tt)).
Proof.
  unfold emit. rewrite bind_continue. reflexivity.
Qed.

Lemma bind_outcome_continue {A B : Type} (m : M A) (k : A -> M B) (b : B) :
  outcome_of (bind m k) = Continue b ->
  exists a, outcome_of m = Continue a /\ outcome_of (k a) = Continue b /\
            trace_of (bind m k) = (trace_of m ++ trace_of (k a))%list.
Proof.
  destruct m as [tr [a | c | | plan | f | w]]; cbn; try discriminate.
  destruct (k a) as [tr' o] eqn:Ek. cbn. intros ->.
  exists a. rewrite Ek. auto.
Qed.

Lemma surjective_M {A : Type} (m : M A) : m = (trace_of m, outcome_of m).
Proof. destruct m. reflexivity. Qed.

(** ** Signal delivery *)

Lemma set_fg_only_mode_same (st : shell_state) :
  set_fg_only_mode st (fg_only_mode st) = st.
Proof. destruct st. reflexivity. Qed.

(** X10: signals never end the loop and touch nothing but the mode.  Each
    signal makes its handler write one message; the interrupt signal
    leaves the state alone, and after any sequence of signals the mode is
    the old one if the number of terminal-stop signals is even, the
    opposite one if it is odd. *)
Theorem deliver_parity (sgs : list signal) :
  forall st,
    fg_only_mode st = 0 \/ fg_only_mode st = 1 ->
    outcome_of (deliver sgs st)
      = Continue (set_fg_only_mode st
                    (if Nat.even (count_tstp sgs) then fg_only_mode st
                     else 1 - fg_only_mode st))
    /\ List.length (trace_of (deliver sgs st)) = List.length sgs
    /\ Forall (fun e => exists text, e = SysWrite text) (trace_of (deliver sgs st)).
Proof.
  induction sgs as [|sg sgs IH]; intros st Hmode.
  - cbn. rewrite set_fg_only_mode_same. auto.
  - cbn [deliver]. destruct sg.
    + (* SIGINT *)
      unfold handle, catchSIGINT. rewrite bind_emit. cbn [trace_of outcome_of fst snd ret].
      rewrite bind_continue. cbn [trace_of outcome_of fst snd count_tstp List.length].
      destruct (IH st Hmode) as (Ho & Hl & Hw).
      split; [exact Ho|]. split; [cbn; now rewrite Hl|].
      constructor; [eexists; reflexivity | exact Hw].
    + (* SIGTSTP *)
      unfold handle, catchSIGTSTP. cbn [count_tstp]. rewrite Nat.even_succ, <- Nat.negb_even.
      destruct Hmode as [H0 | H1].
      * rewrite H0. cbn [Z.eqb]. rewrite bind_emit. cbn [trace_of outcome_of fst snd ret].
        rewrite bind_continue. cbn [trace_of outcome_of fst snd List.length].
        destruct (IH (set_fg_only_mode st 1)) as (Ho & Hl & Hw); [right; reflexivity|].
        rewrite Ho. cbn [set_fg_only_mode fg_only_mode spawnpid childExitMethod
                         exit_status term_signal children].
        split; [|split; [cbn; now rewrite Hl | constructor; [eexists; reflexivity | exact Hw]]].
        destruct (Nat.even (count_tstp sgs)); reflexivity.
      * rewrite H1. cbn [Z.eqb]. rewrite bind_emit. cbn [trace_of outcome_of fst snd ret].
        rewrite bind_continue. cbn [trace_of outcome_of fst snd List.length].
        destruct (IH (set_fg_only_mode st 0)) as (Ho & Hl & Hw); [left; reflexivity|].
        rewrite Ho. cbn [set_fg_only_mode fg_only_mode spawnpid childExitMethod
                         exit_status term_signal children].
        split; [|split; [cbn; now rewrite Hl | constructor; [eexists; reflexivity | exact Hw]]].
        destruct (Nat.even (count_tstp sgs)); reflexivity.
Qed.

Lemma deliver_parity_witness :
  outcome_of (deliver [SIGTSTP; SIGINT; SIGTSTP; SIGTSTP] shell0)
    = Continue (set_fg_only_mode shell0
                  (if Nat.even (count_tstp [SIGTSTP; SIGINT; SIGTSTP; SIGTSTP])
                   then fg_only_mode shell0 else 1 - fg_only_mode shell0))
  /\ List.length (trace_of (deliver [SIGTSTP; SIGINT; SIGTSTP; SIGTSTP] shell0))
     = List.length [SIGTSTP; SIGINT; SIGTSTP; SIGTSTP]
  /\ Forall (fun e => exists text, e = SysWrite text)
            (trace_of (deliver [SIGTSTP; SIGINT; SIGTSTP; SIGTSTP] shell0)).
Proof.
  apply (deliver_parity [SIGTSTP; SIGINT; SIGTSTP; SIGTSTP] shell0).
  left. reflexivity.
Defined.

(** Delivery always hands the loop a state back. *)
Lemma deliver_continues (sgs : list signal) :
  forall st, exists st',
    outcome_of (deliver sgs st) = Continue st' /\
    children st' = children st /\
    childExitMethod st' = childExitMethod st /\
    forks (trace_of (deliver sgs st)) = O.
Proof.
  induction sgs as [|sg sgs IH]; intros st.
  - exists st. cbn. auto.
  - cbn [deliver]. destruct sg.
    + unfold handle, catchSIGINT. rewrite bind_emit. cbn [trace_of outcome_of fst snd ret].
      rewrite bind_continue. cbn [trace_of outcome_of fst snd forks].
      exact (IH st).
    + unfold handle, catchSIGTSTP.
      destruct (fg_only_mode st =? 0);
        rewrite bind_emit; cbn [trace_of outcome_of fst snd ret];
        rewrite bind_continue; cbn [trace_of outcome_of fst snd forks];
        match goal with |- context [deliver sgs ?s] => destruct (IH s) as (st' & ? & ? & ? & ?) end;
        exists st'; auto.
Qed.

(** ** Built-ins, in general *)

Lemma exit_loop_silent (os : os_reply) (cs : list Z) :
  forks (trace_of (exit_loop os cs)) = O /\ printed (trace_of (exit_loop os cs)) = [].
Proof.
  induction cs as [|c cs IH]; [split; reflexivity|].
  cbn [exit_loop]. destruct (exit_loop os cs) as [tr o]. cbn [trace_of fst] in IH.
  destruct (0 <? c); [destruct (os_job_ends os c)|]; cbn; exact IH || (split; reflexivity).
Qed.

Lemma exit_loop_outcome (os : os_reply) (cs : list Z) :
  (outcome_of (exit_loop os cs) = Continue tt /\
   forall c, In c cs -> 0 < c -> os_job_ends os c = true) \/
  (exists c, outcome_of (exit_loop os cs) = Blocked c /\
             In c cs /\ 0 < c /\ os_job_ends os c = false).
Proof.
  induction cs as [|c cs IH].
  - left. split; [reflexivity | intros c []].
  - cbn [exit_loop]. destruct (exit_loop os cs) as [tr o]. cbn [outcome_of snd] in IH.
    destruct (0 <? c) eqn:Ec.
    + apply Z.ltb_lt in Ec. destruct (os_job_ends os c) eqn:Ee.
      * cbn. destruct IH as [[-> Hall] | (c' & -> & Hin & Hpos & He)].
        -- left. split; [reflexivity|]. intros x [<- | Hx] Hx0; auto.
        -- right. exists c'. cbn. auto.
      * right. exists c. cbn. auto.
    + apply Z.ltb_ge in Ec. cbn. destruct IH as [[-> Hall] | (c' & -> & Hin & Hpos & He)].
      * left. split; [reflexivity|]. intros x [<- | Hx] Hx0; [lia | auto].
      * right. exists c'. cbn. auto.
Qed.

(** X11: [exit] never hands a state to the next iteration, whatever its
    arguments, redirections and background flag, and it neither forks nor
    prints.  It walks the job table in order, skips the freed slots, and
    blocks in [waitpid] on each slot holding a process id.  If every such
    job ends, these are all the blocking waits and the shell exits with
    status 0; if one of them never ends, the shell does not exit: it stays
    in [waitpid] on a job that never ends. *)
Theorem exit_walks_live_jobs (os : os_reply) (st : shell_state) (p : parsed) :
  command p = "exit" ->
  (forall st', outcome_of (dispatch os st p) <> Continue st') /\
  forks (trace_of (dispatch os st p)) = O /\
  printed (trace_of (dispatch os st p)) = [] /\
  ((forall c, In c (children st) -> 0 < c -> os_job_ends os c = true) ->
   outcome_of (dispatch os st p) = Exited 0 /\
   filter is_blocking_wait (trace_of (dispatch os st p))
     = map (fun child => SysWaitpid child 0) (filter (fun c => 0 <? c) (children st))) /\
  ((exists c, In c (children st) /\ 0 < c /\ os_job_ends os c = false) ->
   exists c, outcome_of (dispatch os st p) = Blocked c /\
             In c (children st) /\ 0 < c /\ os_job_ends os c = false).
Proof.
  intros Hcmd. unfold dispatch. rewrite Hcmd. change (streq "exit" "exit") with true.
  cbv iota. unfold exit_builtin.
  destruct (exit_loop_silent os (children st)) as [Hf Hp].
  pose proof (exit_loop_outcome os (children st)) as Hout.
  pose proof (exit_loop_trace os (children st)) as Htr.
  destruct (exit_loop os (children st)) as [tr o].
  cbn [trace_of outcome_of fst snd] in Hf, Hp, Hout.
  assert (Htrace : trace_of (bind (tr, o) (fun _ : unit => stop (A := shell_state) (Exited 0))) = tr).
  { destruct o as [[] | c | | plan | f | w]; cbn; rewrite ?app_nil_r; reflexivity. }
  rewrite Htrace.
  split; [|split; [exact Hf | split; [exact Hp | split]]].
  - intros st'. destruct o as [[] | c | | plan | f | w]; cbn; discriminate.
  - intros Hends. specialize (Htr Hends). inversion Htr; subst. cbn. split; [reflexivity|].
    clear. induction (children st) as [|c cs IH]; [reflexivity|].
    cbn [flat_map filter]. destruct (0 <? c); cbn; rewrite IH; reflexivity.
  - intros (c & Hin & Hpos & He).
    destruct Hout as [[_ Hall] | (c' & -> & Hin' & Hpos' & He')].
    + rewrite (Hall c Hin Hpos) in He. discriminate.
    + exists c'. cbn. auto.
Qed.

Lemma exit_walks_live_jobs_witness :
  (forall st', outcome_of (dispatch (os_with 0 None nobody_done)
                             (set_children shell0 [31; -5; 32])
                             (mkParsed "exit" ["exit"; "now"] "" "" 1)) <> Continue st') /\
  forks (trace_of (dispatch (os_with 0 None nobody_done) (set_children shell0 [31; -5; 32])
                            (mkParsed "exit" ["exit"; "now"] "" "" 1))) = O /\
  printed (trace_of (dispatch (os_with 0 None nobody_done) (set_children shell0 [31; -5; 32])
                              (mkParsed "exit" ["exit"; "now"] "" "" 1))) = [] /\
  ((forall c, In c (children (set_children shell0 [31; -5; 32])) -> 0 < c ->
              os_job_ends (os_with 0 None nobody_done) c = true) ->
   outcome_of (dispatch (os_with 0 None nobody_done) (set_children shell0 [31; -5; 32])
                        (mkParsed "exit" ["exit"; "now"] "" "" 1)) = Exited 0 /\
   filter is_blocking_wait
     (trace_of (dispatch (os_with 0 None nobody_done) (set_children shell0 [31; -5; 32])
                         (mkParsed "exit" ["exit"; "now"] "" "" 1)))
     = map (fun child => SysWaitpid child 0)
           (filter (fun c => 0 <? c) (children (set_children shell0 [31; -5; 32])))) /\
  ((exists c, In c (children (set_children shell0 [31; -5; 32])) /\ 0 < c /\
              os_job_ends (os_with 0 None nobody_done) c = false) ->
   exists c, outcome_of (dispatch (os_with 0 None nobody_done)
                           (set_children shell0 [31; -5; 32])
                           (mkParsed "exit" ["exit"; "now"] "" "" 1)) = Blocked c /\
             In c (children (set_children shell0 [31; -5; 32])) /\ 0 < c /\
             os_job_ends (os_with 0 None nobody_done) c = false).
Proof.
  apply (exit_walks_live_jobs (os_with 0 None nobody_done)
           (set_children shell0 [31; -5; 32]) (mkParsed "exit" ["exit"; "now"] "" "" 1)).
  reflexivity.
Defined.

(** X12: [cd] makes at most one system call and nothing else: with the
    command alone it changes to the value of HOME, with one operand to
    that operand, and with two or more operands it does nothing at all.
    The result of [chdir] is not looked at, nothing is printed, no process
    is created, and the shell state is unchanged. *)
Theorem cd_does_one_chdir (os : os_reply) (st : shell_state) (p : parsed) :
  command p = "cd" ->
  dispatch os st p =
    (match args p with
     | [_] => [SysChdir (os_home os)]
     | [_; dir] => [SysChdir (Some dir)]
     | _ => []
     end, Continue st).
Proof.
  intros Hcmd. unfold dispatch. rewrite Hcmd.
  change (streq "cd" "exit") with false. change (streq "cd" "cd") with true.
  cbv iota. unfold cd_builtin.
  destruct (args p) as [|a0 [|a1 [|a2 rest]]]; try reflexivity.
  cbn [List.length].
  assert (H1 : (Z.of_nat (S (S (S (List.length rest)))) =? 1) = false) by (apply Z.eqb_neq; lia).
  assert (H2 : (Z.of_nat (S (S (S (List.length rest)))) =? 2) = false) by (apply Z.eqb_neq; lia).
  rewrite H1, H2. reflexivity.
Qed.

Lemma cd_does_one_chdir_witness :
  dispatch (os_with 0 None nobody_done) shell0 (mkParsed "cd" ["cd"; "a"; "b"] "" "" 0) =
    (match args (mkParsed "cd" ["cd"; "a"; "b"] "" "" 0) with
     | [_] => [SysChdir (os_home (os_with 0 None nobody_done))]
     | [_; dir] => [SysChdir (Some dir)]
     | _ => []
     end, Continue shell0).
Proof.
  apply (cd_does_one_chdir (os_with 0 None nobody_done) shell0
           (mkParsed "cd" ["cd"; "a"; "b"] "" "" 0)).
  reflexivity.
Defined.

(** ** Wait statuses *)

Lemma land_127 (a : Z) : Z.land a 127 = a mod 128.
Proof. change 127 with (Z.ones 7). rewrite Z.land_ones by lia. reflexivity. Qed.

(** The status of a normal exit with code [c] decodes to [c]. *)
Lemma exit_code_decodes (c : Z) :
  0 <= c <= 255 ->
  WIFEXITED (256 * c) = 1 /\ WEXITSTATUS (256 * c) = c /\ WIFSIGNALED (256 * c) = 0.
Proof.
  intros Hc.
  assert (Hlow : Z.land (256 * c) 127 = 0).
  { rewrite land_127. replace (256 * c) with ((2 * c) * 128) by lia. apply Z_mod_mult. }
  unfold WIFEXITED, WIFSIGNALED, WEXITSTATUS, WTERMSIG. rewrite Hlow.
  repeat split; try reflexivity.
  rewrite Z.shiftr_land.
  rewrite (Z.shiftr_div_pow2 (256 * c) 8) by lia.
  change (2 ^ 8) with 256. rewrite Z.mul_comm, Z.div_mul by lia.
  change (Z.shiftr 65280 8) with (Z.ones 8). rewrite Z.land_ones by lia.
  apply Z.mod_small. change (2 ^ 8) with 256. lia.
Qed.

(** The status of a death by signal [sig], with or without the core-dump
    flag 128, decodes to [sig]. *)
Lemma signal_decodes (sig core : Z) :
  1 <= sig <= 126 -> core = 0 \/ core = 128 ->
  WIFSIGNALED (sig + core) = 1 /\ WTERMSIG (sig + core) = sig /\ WIFEXITED (sig + core) = 0.
Proof.
  intros Hs Hcore.
  assert (Hlow : Z.land (sig + core) 127 = sig).
  { rewrite land_127. destruct Hcore as [-> | ->].
    - rewrite Z.add_0_r. apply Z.mod_small. lia.
    - replace (sig + 128) with (sig + 1 * 128) by lia.
      rewrite Z_mod_plus_full. apply Z.mod_small. lia. }
  unfold WIFEXITED, WIFSIGNALED, WTERMSIG, to_signed_char. rewrite Hlow.
  assert (Hm : (sig + 1) mod 256 = sig + 1) by (apply Z.mod_small; lia).
  rewrite Hm.
  assert (Hlt : (sig + 1 <? 128) = true) by (apply Z.ltb_lt; lia). rewrite Hlt.
  assert (Hsh : (0 <? Z.shiftr (sig + 1) 1) = true).
  { apply Z.ltb_lt. rewrite Z.shiftr_div_pow2 by lia. change (2 ^ 1) with 2.
    apply Z.div_str_pos. lia. }
  rewrite Hsh.
  assert (Hz : (sig =? 0) = false) by (apply Z.eqb_neq; lia). rewrite Hz.
  auto.
Qed.

(** ** Launching, in general *)

Ltac launch_parent Hm1 H0 :=
  unfold fork_guard; cbn [Z.add Z.leb Z.compare Pos.compare Pos.compare_cont];
  cbn [set_spawnpid spawnpid];
  apply Z.eqb_neq in Hm1; apply Z.eqb_neq in H0;
  cbn [bind emit ret stop app set_childExitMethod childExitMethod
       set_term_signal term_signal];
  rewrite Hm1, H0; cbn [bind emit ret stop app].

Lemma not_builtin_cases (name : string) :
  is_builtin name = false ->
  streq name "exit" = false /\ streq name "cd" = false /\ streq name "status" = false.
Proof.
  unfold is_builtin. intros H.
  apply orb_false_iff in H as [H H3]. apply orb_false_iff in H as [H1 H2]. auto.
Qed.

(** X15: when [fork] fails, the shell itself exits with status 1 after
    [perror], in the foreground path and in the background path alike;
    nothing is waited for and nothing is registered. *)
Theorem fork_failure_exits_shell (os : os_reply) (st : shell_state) (p : parsed) :
  is_builtin (command p) = false ->
  os_fork os = -1 ->
  dispatch os st p = ([SysFork (-1); Perror ("fork error" ++ nl)], Exited 1).
Proof.
  intros Hb Hf. destruct (not_builtin_cases _ Hb) as (E1 & E2 & E3).
  unfold dispatch. rewrite E1, E2, E3.
  destruct (run_in_background p =? 0);
    [unfold launch_foreground | unfold launch_background];
    rewrite Hf; reflexivity.
Qed.

Lemma fork_failure_exits_shell_witness :
  dispatch (os_with (-1) None nobody_done) shell0 (mkParsed "ls" ["ls"] "" "" 1)
  = ([SysFork (-1); Perror ("fork error" ++ nl)], Exited 1).
Proof.
  apply (fork_failure_exits_shell (os_with (-1) None nobody_done) shell0
           (mkParsed "ls" ["ls"] "" "" 1)); reflexivity.
Defined.

Lemma WIFSIGNALED_bit (status : Z) : WIFSIGNALED status = 0 \/ WIFSIGNALED status = 1.
Proof.
  unfold WIFSIGNALED. destruct (0 <? _); auto.
Qed.

(** X16: a background launch does not wait.  The parent prints the new
    process id and appends it to the job table; the last wait status and
    the mode stay as they were.  Because the parent then tests the stale
    wait status, a status left by a signal death makes it print that
    signal once more. *)
Theorem background_job_registered (os : os_reply) (st : shell_state) (p : parsed) :
  os_fork os <> -1 ->
  os_fork os <> 0 ->
  num_procs st < 150 ->
  exists st',
    outcome_of (launch_background os st p) = Continue st' /\
    children st' = (children st ++ [os_fork os])%list /\
    childExitMethod st' = childExitMethod st /\
    fg_only_mode st' = fg_only_mode st /\
    existsb is_blocking_wait (trace_of (launch_background os st p)) = false /\
    printed (trace_of (launch_background os st p)) =
      ("background pid is " ++ fmt_d (os_fork os) ++ nl) ::
      (if WIFSIGNALED (childExitMethod st) =? 1
       then ["terminated by signal " ++ fmt_d (WTERMSIG (childExitMethod st)) ++ nl]
       else []).
Proof.
  intros Hm1 H0 Hroom.
  unfold launch_background. launch_parent Hm1 H0.
  assert (Hr : (150 <=? num_procs (set_spawnpid st (os_fork os))) = false).
  { apply Z.leb_gt. exact Hroom. }
  rewrite Hr.
  cbn [bind emit ret stop app set_children set_spawnpid children childExitMethod].
  unfold c_ne. destruct (childExitMethod st =? 0) eqn:Ez.
  - apply Z.eqb_eq in Ez. rewrite Ez.
    change (WIFEXITED 0) with 1. change (WIFSIGNALED 0) with 0.
    cbn [Z.eqb negb bind emit ret stop app].
    eexists. repeat split; try reflexivity. exact Ez.
  - change (WIFEXITED 1) with 0. cbn [Z.eqb negb].
    destruct (WIFSIGNALED_bit (childExitMethod st)) as [Hs | Hs]; rewrite Hs;
      cbn [Z.eqb negb bind emit ret stop app Pos.eqb];
      eexists; repeat split; reflexivity.
Qed.

Lemma background_job_registered_witness :
  exists st',
    outcome_of (launch_background (os_with 101 None nobody_done)
                  (set_childExitMethod shell0 2) (mkParsed "sleep" ["sleep"; "9"] "" "" 1))
      = Continue st' /\
    children st' = (children (set_childExitMethod shell0 2)
                    ++ [os_fork (os_with 101 None nobody_done)])%list /\
    childExitMethod st' = childExitMethod (set_childExitMethod shell0 2) /\
    fg_only_mode st' = fg_only_mode (set_childExitMethod shell0 2) /\
    existsb is_blocking_wait
      (trace_of (launch_background (os_with 101 None nobody_done)
                   (set_childExitMethod shell0 2)
                   (mkParsed "sleep" ["sleep"; "9"] "" "" 1))) = false /\
    printed (trace_of (launch_background (os_with 101 None nobody_done)
                         (set_childExitMethod shell0 2)
                         (mkParsed "sleep" ["sleep"; "9"] "" "" 1))) =
      ("background pid is " ++ fmt_d (os_fork (os_with 101 None nobody_done)) ++ nl) ::
      (if WIFSIGNALED (childExitMethod (set_childExitMethod shell0 2)) =? 1
       then ["terminated by signal "
             ++ fmt_d (WTERMSIG (childExitMethod (set_childExitMethod shell0 2))) ++ nl]
       else []).
Proof.
  apply (background_job_registered (os_with 101 None nobody_done)
           (set_childExitMethod shell0 2) (mkParsed "sleep" ["sleep"; "9"] "" "" 1)).
  - cbn. lia.
  - cbn. lia.
  - cbn. lia.
Defined.

(** ** The reaper, in general *)

Lemma waits_app (a b : list event) : waits (a ++ b) = (waits a ++ waits b)%list.
Proof.
  induction a as [|e a IH]; [reflexivity|]. destruct e; cbn; rewrite IH; reflexivity.
Qed.

Lemma forks_app (a b : list event) : forks (a ++ b) = (forks a + forks b)%nat.
Proof.
  induction a as [|e a IH]; [reflexivity|]. destruct e; cbn; rewrite IH; reflexivity.
Qed.

Lemma printed_app (a b : list event) : printed (a ++ b) = (printed a ++ printed b)%list.
Proof.
  induction a as [|e a IH]; [reflexivity|]. destruct e; cbn; rewrite IH; reflexivity.
Qed.

Lemma reap_loop_shape (os : os_reply) (cs : list Z) :
  forall temp st, exists st' cs',
    outcome_of (reap_loop os temp st cs) = Continue (st', cs') /\
    waits (trace_of (reap_loop os temp st cs))
      = map (fun c => (c, WNOHANG)) (live_slots cs) /\
    forks (trace_of (reap_loop os temp st cs)) = O /\
    Forall2 (fun c c' => c' = c \/ c' = -5) cs cs' /\
    fg_only_mode st' = fg_only_mode st.
Proof.
  induction cs as [|c cs IH]; intros temp st.
  - exists st, []. cbn. repeat split; constructor.
  - cbn [reap_loop live_slots filter].
    destruct (negb (c =? -5)) eqn:E5;
      [destruct (os_wait_nohang os c) eqn:Ew|];
      cbn [bind emit ret stop app fst snd];
      match goal with |- context [if ?t =? c then _ else _] => destruct (t =? c) end;
      try (destruct (negb (WIFEXITED _ =? 0));
           [|destruct (negb (WIFSIGNALED _ =? 0))]);
      cbn [bind emit ret stop app fst snd];
      match goal with
      | |- context [reap_loop os ?t ?s cs] =>
          destruct (IH t s) as (st' & cs' & Ho & Hw & Hf & H2 & Hm);
          destruct (reap_loop os t s cs) as [tr o];
          cbn [trace_of outcome_of fst snd] in Ho, Hw, Hf; subst o
      end;
      cbn [bind emit ret stop app fst snd trace_of outcome_of waits forks map];
      rewrite ?app_nil_r; cbn [waits forks];
      eexists; eexists;
      (split; [reflexivity|]); (split; [rewrite Hw; reflexivity|]);
      (split; [exact Hf|]); (split; [constructor; [auto | exact H2] | exact Hm]).
Qed.

Lemma reap_loop_slots (os : os_reply) (cs : list Z) :
  forall temp st,
    temp <> -5 ->
    Forall slot_ok cs ->
    exists st',
      outcome_of (reap_loop os temp st cs)
      = Continue (st', map (reaped_slot (os_wait_nohang os)) cs).
Proof.
  induction cs as [|c cs IH]; intros temp st Htemp Hok.
  - exists st. reflexivity.
  - inversion Hok as [|? ? Hc Hcs]; subst.
    cbn [reap_loop map]. unfold reaped_slot at 1.
    destruct Hc as [-> | Hpos].
    + change (-5 =? -5) with true. cbn [negb bind emit ret stop app fst snd].
      apply Z.eqb_neq in Htemp. rewrite Htemp.
      cbn [bind emit ret stop app fst snd].
      destruct (IH temp st) as (st' & Ho); [apply Z.eqb_neq, Htemp | exact Hcs |].
      destruct (reap_loop os temp st cs) as [tr o]. cbn [outcome_of snd] in Ho. subst o.
      exists st'. reflexivity.
    + assert (E5 : (c =? -5) = false) by (apply Z.eqb_neq; lia).
      assert (E0 : (0 =? c) = false) by (apply Z.eqb_neq; lia).
      assert (E1 : (-1 =? c) = false) by (apply Z.eqb_neq; lia).
      rewrite E5. cbn [negb].
      destruct (os_wait_nohang os c) eqn:Ew;
        cbn [bind emit ret stop app fst snd];
        rewrite ?Z.eqb_refl, ?E0, ?E1;
        try (destruct (negb (WIFEXITED _ =? 0));
             [|destruct (negb (WIFSIGNALED _ =? 0))]);
        cbn [bind emit ret stop app fst snd];
        match goal with
        | |- context [reap_loop os ?t ?s cs] =>
            destruct (IH t s) as (st' & Ho); [lia | exact Hcs |];
            destruct (reap_loop os t s cs) as [tr o];
            cbn [outcome_of snd] in Ho; subst o
        end;
        exists st'; reflexivity.
Qed.

Lemma reap_loop_idle (os : os_reply) (cs : list Z) :
  forall temp st,
    temp <> -5 ->
    Forall slot_ok cs ->
    (forall c, In c cs -> is_reaped (os_wait_nohang os c) = false) ->
    reap_loop os temp st cs
    = (map (fun c => SysWaitpid c WNOHANG) (live_slots cs), Continue (st, cs)).
Proof.
  induction cs as [|c cs IH]; intros temp st Htemp Hok Hidle.
  - reflexivity.
  - inversion Hok as [|? ? Hc Hcs]; subst.
    assert (Hrest : forall c', In c' cs -> is_reaped (os_wait_nohang os c') = false).
    { intros c' Hin. apply Hidle. right. exact Hin. }
    cbn [reap_loop live_slots filter].
    destruct Hc as [-> | Hpos].
    + change (-5 =? -5) with true. cbn [negb bind emit ret stop app fst snd].
      apply Z.eqb_neq in Htemp. rewrite Htemp.
      cbn [bind emit ret stop app fst snd].
      rewrite (IH temp st) by (first [assumption | apply Z.eqb_neq; assumption]).
      cbn [bind emit ret stop app fst snd live_slots]. rewrite app_nil_r. reflexivity.
    + assert (E5 : (c =? -5) = false) by (apply Z.eqb_neq; lia).
      assert (E0 : (0 =? c) = false) by (apply Z.eqb_neq; lia).
      assert (E1 : (-1 =? c) = false) by (apply Z.eqb_neq; lia).
      rewrite E5. cbn [negb].
      pose proof (Hidle c (or_introl eq_refl)) as Hnot.
      destruct (os_wait_nohang os c) eqn:Ew; [discriminate Hnot | |];
        cbn [bind emit ret stop app fst snd];
        rewrite ?E0, ?E1; cbn [bind emit ret stop app fst snd];
        rewrite IH by (first [assumption | lia]);
        cbn [bind emit ret stop app fst snd map live_slots]; rewrite app_nil_r; reflexivity.
Qed.

(** X18: in every iteration the reaper polls each slot that is not freed
    exactly once, in table order, with WNOHANG, and polls nothing else; it
    creates no process, never ends the loop, never changes the size of
    the table or the mode, and a slot either keeps its value or is reset
    to -5. *)
Theorem reap_polls_each_live_slot_once (os : os_reply) (st : shell_state) :
  exists st',
    outcome_of (reap os st) = Continue st' /\
    waits (trace_of (reap os st))
      = map (fun c => (c, WNOHANG)) (live_slots (children st)) /\
    forks (trace_of (reap os st)) = O /\
    Forall2 (fun c c' => c' = c \/ c' = -5) (children st) (children st') /\
    fg_only_mode st' = fg_only_mode st.
Proof.
  unfold reap.
  destruct (reap_loop_shape os (children st) 0 st) as (st' & cs' & Ho & Hw & Hf & H2 & Hm).
  destruct (reap_loop os 0 st (children st)) as [tr o].
  cbn [trace_of outcome_of fst snd] in Ho, Hw, Hf. subst o.
  cbn [bind ret fst snd trace_of outcome_of]. rewrite app_nil_r.
  exists (set_children st' cs'). cbn [set_children children fg_only_mode]. auto.
Qed.

(** X19: with a table that holds only freed slots and process ids, the
    reaper frees exactly the slots whose process [waitpid] reports as
    ended, and leaves every other slot as it is. *)
Theorem reap_frees_finished_slots (os : os_reply) (st : shell_state) :
  Forall slot_ok (children st) ->
  exists st',
    outcome_of (reap os st) = Continue st' /\
    children st' = map (reaped_slot (os_wait_nohang os)) (children st) /\
    Forall slot_ok (children st').
Proof.
  intros Hok. unfold reap.
  destruct (reap_loop_slots os (children st) 0 st) as (st' & Ho); [lia | exact Hok |].
  destruct (reap_loop os 0 st (children st)) as [tr o].
  cbn [outcome_of snd] in Ho. subst o.
  cbn [bind ret fst snd trace_of outcome_of].
  eexists. split; [reflexivity|]. cbn [set_children children]. split; [reflexivity|].
  apply Forall_map. eapply Forall_impl; [|exact Hok].
  intros c Hc. unfold reaped_slot, slot_ok.
  destruct (c =? -5); [left; reflexivity|].
  destruct (os_wait_nohang os c); auto.
Qed.

Lemma reap_frees_finished_slots_witness :
  exists st',
    outcome_of (reap (os_with 0 None (fun c => if c =? 8 then Reaped 0 else StillRunning))
                     (set_children shell0 [7; -5; 8])) = Continue st' /\
    children st'
    = map (reaped_slot (os_wait_nohang
                          (os_with 0 None (fun c => if c =? 8 then Reaped 0 else StillRunning))))
          (children (set_children shell0 [7; -5; 8])) /\
    Forall slot_ok (children st').
Proof.
  apply (reap_frees_finished_slots
           (os_with 0 None (fun c => if c =? 8 then Reaped 0 else StillRunning))
           (set_children shell0 [7; -5; 8])).
  cbn. repeat constructor; unfold slot_ok; lia.
Defined.

Lemma set_children_same (st : shell_state) : set_children st (children st) = st.
Proof. destruct st. reflexivity. Qed.

(** X20: when no job has ended, the reaper only polls: it prints nothing
    and leaves the whole shell state, the last wait status included, as it
    found it. *)
Theorem reap_without_completions (os : os_reply) (st : shell_state) :
  Forall slot_ok (children st) ->
  (forall c, In c (children st) -> is_reaped (os_wait_nohang os c) = false) ->
  reap os st
  = (map (fun c => SysWaitpid c WNOHANG) (live_slots (children st)), Continue st).
Proof.
  intros Hok Hidle. unfold reap.
  rewrite reap_loop_idle by (first [assumption | lia]).
  cbn [bind ret fst snd]. rewrite app_nil_r, set_children_same. reflexivity.
Qed.

Lemma reap_without_completions_witness :
  reap (os_with 0 None nobody_done) (set_children shell0 [7; -5; 8])
  = (map (fun c => SysWaitpid c WNOHANG)
         (live_slots (children (set_children shell0 [7; -5; 8]))),
     Continue (set_children shell0 [7; -5; 8])).
Proof.
  apply (reap_without_completions (os_with 0 None nobody_done)
           (set_children shell0 [7; -5; 8])).
  - cbn. repeat constructor; unfold slot_ok; lia.
  - intros c _. reflexivity.
Defined.

(** ** The loop as a whole *)

Lemma calm_ret {A : Type} (a : A) : calm 0 (ret a).
Proof. split; [apply le_n | discriminate]. Qed.

Lemma calm_lift {A : Type} (r : result A) : calm 0 (lift r).
Proof. destruct r; (split; [apply le_n | discriminate]). Qed.

Lemma calm_weaken {A : Type} (n n' : nat) (m : M A) :
  (n <= n')%nat -> calm n m -> calm n' m.
Proof. intros Hle [Hf Ho]. split; [lia | exact Ho]. Qed.

Lemma calm_bind {A B : Type} (n n' : nat) (m : M A) (k : A -> M B) :
  calm n m -> (forall a, calm n' (k a)) -> calm (n + n') (bind m k).
Proof.
  unfold calm. destruct m as [tr [a | c | | plan | f | w]]; cbn;
    intros [Hf Ho] Hk; try (split; [lia | congruence]).
  destruct (Hk a) as [Hfa Hoa]. destruct (k a) as [tr' o]. cbn in *.
  rewrite forks_app. split; [lia | exact Hoa].
Qed.

Lemma calm_deliver (sgs : list signal) (st : shell_state) : calm 0 (deliver sgs st).
Proof.
  destruct (deliver_continues sgs st) as (st' & Ho & _ & _ & Hf).
  split; [rewrite Hf; apply le_n | rewrite Ho; discriminate].
Qed.

Lemma calm_reap (os : os_reply) (st : shell_state) : calm 0 (reap os st).
Proof.
  unfold reap.
  destruct (reap_loop_shape os (children st) 0 st) as (st' & cs' & Ho & _ & Hf & _).
  destruct (reap_loop os 0 st (children st)) as [tr o].
  cbn [trace_of outcome_of fst snd] in Ho, Hf. subst o.
  cbn [bind ret fst snd]. rewrite app_nil_r.
  split; [cbn; rewrite Hf; apply le_n | discriminate].
Qed.

Lemma calm_dispatch (os : os_reply) (st : shell_state) (p : parsed) :
  calm 1 (dispatch os st p).
Proof.
  unfold dispatch.
  destruct (streq (command p) "exit").
  { unfold exit_builtin.
    destruct (exit_loop_silent os (children st)) as [Hf _].
    pose proof (exit_loop_outcome os (children st)) as Hout.
    destruct (exit_loop os (children st)) as [tr o].
    cbn [trace_of outcome_of fst snd] in Hf, Hout.
    unfold calm.
    destruct Hout as [[-> _] | (c & -> & _)];
      cbn [bind stop trace_of outcome_of fst snd]; rewrite ?app_nil_r;
      (split; [rewrite Hf; lia | discriminate]). }
  destruct (streq (command p) "cd").
  { unfold cd_builtin.
    destruct (Z.of_nat (List.length (args p)) =? 1);
      [|destruct (Z.of_nat (List.length (args p)) =? 2)];
      (split; [cbn; lia | discriminate]). }
  destruct (streq (command p) "status").
  { unfold status_builtin.
    destruct (negb (WIFEXITED (childExitMethod st) =? 0));
      [|destruct (negb (WIFSIGNALED (childExitMethod st) =? 0))];
      (split; [cbn; lia | discriminate]). }
  destruct (run_in_background p =? 0).
  - unfold launch_foreground, fork_guard.
    cbn [Z.add Z.leb Z.compare Pos.compare Pos.compare_cont set_spawnpid spawnpid].
    destruct (os_fork os =? -1); [split; [cbn; lia | discriminate]|].
    destruct (os_fork os =? 0); [split; [cbn; lia | discriminate]|].
    destruct (os_wait_fg os);
      cbn [set_childExitMethod childExitMethod];
      (destruct (negb (WIFEXITED _ =? 0));
       [|destruct (negb (WIFSIGNALED _ =? 0));
         [destruct (negb (term_signal _ =? 11))|]]);
      (split; [cbn; lia | discriminate]).
  - unfold launch_background, fork_guard.
    cbn [Z.add Z.leb Z.compare Pos.compare Pos.compare_cont set_spawnpid spawnpid].
    destruct (os_fork os =? -1); [split; [cbn; lia | discriminate]|].
    destruct (os_fork os =? 0); [split; [cbn; lia | discriminate]|].
    destruct (150 <=? num_procs _); [split; [cbn; lia | discriminate]|].
    cbn [set_children children childExitMethod].
    destruct (negb (WIFEXITED _ =? 0));
      [|destruct (negb (WIFSIGNALED _ =? 0))];
      (split; [cbn; lia | discriminate]).
Qed.

(** X21: no iteration forks more than once, whatever the line and
    whatever the system answers; so the counter compared with 50 never
    gets past 1 and the shell never reaches [abort]. *)
Theorem iteration_forks_at_most_once (os : os_reply) (st : shell_state) (line : string) :
  (forks (trace_of (iteration os st line)) <= 1)%nat /\
  outcome_of (iteration os st line) <> Aborted.
Proof.
  unfold iteration.
  apply (calm_bind 0 1); [split; [cbn; lia | discriminate] | intros _].
  apply (calm_bind 0 1); [apply calm_deliver | intros st1].
  apply (calm_bind 0 1);
    [destruct (2048 <=? strlen line); (split; [cbn; lia | discriminate]) | intros _].
  apply (calm_bind 0 1); [apply calm_lift | intros p].
  apply (calm_bind 0 1); [apply calm_lift | intros argv].
  apply (calm_bind 1 0); [apply calm_dispatch | intros st2; apply calm_reap].
Qed.

Lemma dispatch_children (os : os_reply) (st : shell_state) (p : parsed) (st2 : shell_state) :
  -1 <= os_fork os ->
  outcome_of (dispatch os st p) = Continue st2 ->
  fg_only_mode st2 = fg_only_mode st /\
  (children st2 = children st \/
   (children st2 = (children st ++ [os_fork os])%list /\ 0 < os_fork os)).
Proof.
  intros Hfork. unfold dispatch.
  destruct (streq (command p) "exit").
  { unfold exit_builtin. destruct (exit_loop os (children st)) as [tr o].
    destruct o as [[] | c | | plan | f | w]; cbn; discriminate. }
  destruct (streq (command p) "cd").
  { unfold cd_builtin.
    destruct (Z.of_nat (List.length (args p)) =? 1);
      [|destruct (Z.of_nat (List.length (args p)) =? 2)];
      cbn; intros H; inversion H; subst; auto. }
  destruct (streq (command p) "status").
  { unfold status_builtin.
    destruct (negb (WIFEXITED (childExitMethod st) =? 0));
      [|destruct (negb (WIFSIGNALED (childExitMethod st) =? 0))];
      cbn; intros H; inversion H; subst; auto. }
  destruct (run_in_background p =? 0).
  - unfold launch_foreground, fork_guard.
    cbn [Z.add Z.leb Z.compare Pos.compare Pos.compare_cont set_spawnpid spawnpid].
    destruct (os_fork os =? -1); [discriminate|].
    destruct (os_fork os =? 0); [discriminate|].
    destruct (os_wait_fg os);
      cbn [set_childExitMethod childExitMethod];
      (destruct (negb (WIFEXITED _ =? 0));
       [|destruct (negb (WIFSIGNALED _ =? 0));
         [destruct (negb (term_signal _ =? 11))|]]);
      cbn; intros H; inversion H; subst; auto.
  - unfold launch_background, fork_guard.
    cbn [Z.add Z.leb Z.compare Pos.compare Pos.compare_cont set_spawnpid spawnpid].
    destruct (os_fork os =? -1) eqn:Em1; [discriminate|].
    destruct (os_fork os =? 0) eqn:E0; [discriminate|].
    apply Z.eqb_neq in Em1, E0.
    destruct (150 <=? num_procs _); [discriminate|].
    cbn [set_children children childExitMethod].
    destruct (negb (WIFEXITED _ =? 0));
      [|destruct (negb (WIFSIGNALED _ =? 0))];
      cbn; intros H; inversion H; subst; cbn; (split; [reflexivity | right; split; [reflexivity | lia]]).
Qed.

Lemma reap_table (os : os_reply) (st st' : shell_state) :
  Forall slot_ok (children st) ->
  outcome_of (reap os st) = Continue st' ->
  children st' = map (reaped_slot (os_wait_nohang os)) (children st) /\
  fg_only_mode st' = fg_only_mode st.
Proof.
  intros Hok. unfold reap.
  destruct (reap_loop_slots os (children st) 0 st) as (s1 & Ho); [lia | exact Hok |].
  destruct (reap_loop_shape os (children st) 0 st) as (s2 & cs2 & Ho2 & _ & _ & _ & Hm).
  rewrite Ho in Ho2. inversion Ho2; subst s2 cs2.
  destruct (reap_loop os 0 st (children st)) as [tr o].
  cbn [outcome_of snd] in Ho. subst o.
  cbn [bind ret fst snd outcome_of]. intros H. inversion H; subst. auto.
Qed.

Lemma reaped_slot_ok (poll : Z -> wait_result) (cs : list Z) :
  Forall slot_ok cs -> Forall slot_ok (map (reaped_slot poll) cs).
Proof.
  intros Hok. apply Forall_map. eapply Forall_impl; [|exact Hok].
  intros c Hc. unfold reaped_slot, slot_ok.
  destruct (c =? -5); [left; reflexivity|].
  destruct (poll c); auto.
Qed.

Lemma deliver_mode (sgs : list signal) :
  forall st st',
    fg_only_mode st = 0 \/ fg_only_mode st = 1 ->
    outcome_of (deliver sgs st) = Continue st' ->
    fg_only_mode st' = 0 \/ fg_only_mode st' = 1.
Proof.
  induction sgs as [|sg sgs IH]; intros st st' Hmode.
  - cbn. intros H. inversion H; subst. exact Hmode.
  - cbn [deliver]. destruct sg.
    + unfold handle, catchSIGINT. rewrite bind_emit. cbn [trace_of outcome_of fst snd ret].
      rewrite bind_continue. cbn [outcome_of snd]. apply IH, Hmode.
    + unfold handle, catchSIGTSTP.
      destruct (fg_only_mode st =? 0);
        rewrite bind_emit; cbn [trace_of outcome_of fst snd ret];
        rewrite bind_continue; cbn [outcome_of snd]; apply IH; cbn; auto.
Qed.

Lemma reaped_slot_kept (poll : Z -> wait_result) (cs : list Z) :
  Forall2 (fun c c' => c' = c \/ c' = -5) cs (map (reaped_slot poll) cs).
Proof.
  induction cs as [|c cs IH]; [constructor|].
  cbn [map]. constructor; [|exact IH].
  unfold reaped_slot. destruct (c =? -5); [right; reflexivity|].
  destruct (poll c); auto.
Qed.

Lemma kept_trans (a b c : list Z) :
  Forall2 (fun x y => y = x \/ y = -5) a b ->
  Forall2 (fun x y => y = x \/ y = -5) b c ->
  Forall2 (fun x y => y = x \/ y = -5) a c.
Proof.
  intros Hab. revert c. induction Hab as [|x y a b Hxy Hab IH]; intros c Hbc.
  - inversion Hbc. constructor.
  - inversion Hbc as [|? z ? c' Hyz Hbc']; subst.
    constructor; [|apply IH, Hbc'].
    destruct Hyz as [-> | ->]; [exact Hxy | right; reflexivity].
Qed.

Lemma iteration_table (os : os_reply) (st st' : shell_state) (line : string) :
  -1 <= os_fork os ->
  Forall slot_ok (children st) ->
  fg_only_mode st = 0 \/ fg_only_mode st = 1 ->
  outcome_of (iteration os st line) = Continue st' ->
  Forall slot_ok (children st') /\
  (fg_only_mode st' = 0 \/ fg_only_mode st' = 1) /\
  exists kept added,
    children st' = (kept ++ added)%list /\
    Forall2 (fun c c' => c' = c \/ c' = -5) (children st) kept /\
    (List.length added <= 1)%nat.
Proof.
  intros Hfork Hok Hmode H. unfold iteration in H.
  apply bind_outcome_continue in H as (_ & _ & H & _).
  apply bind_outcome_continue in H as (st1 & Hd & H & _).
  apply bind_outcome_continue in H as (_ & _ & H & _).
  apply bind_outcome_continue in H as (p & _ & H & _).
  apply bind_outcome_continue in H as (argv & _ & H & _).
  apply bind_outcome_continue in H as (st2 & Hdis & Hreap & _).
  destruct (deliver_continues (os_signals os) st) as (s & Hs & Hch & _).
  rewrite Hd in Hs. inversion Hs; subst s.
  pose proof (deliver_mode _ _ _ Hmode Hd) as Hmode1.
  destruct (dispatch_children _ _ _ _ Hfork Hdis) as [Hm2 Hch2].
  assert (Hok2 : Forall slot_ok (children st2)).
  { destruct Hch2 as [-> | [-> Hpos]]; rewrite Hch; [exact Hok|].
    apply Forall_app. split; [exact Hok | constructor; [right; exact Hpos | constructor]]. }
  destruct (reap_table _ _ _ Hok2 Hreap) as [Hch3 Hm3].
  rewrite Hch3, Hm3, Hm2.
  split; [apply reaped_slot_ok, Hok2|]. split; [exact Hmode1|].
  destruct Hch2 as [-> | [-> _]]; rewrite Hch.
  - exists (map (reaped_slot (os_wait_nohang os)) (children st)), [].
    rewrite app_nil_r. split; [reflexivity|]. split; [apply reaped_slot_kept | cbn; lia].
  - exists (map (reaped_slot (os_wait_nohang os)) (children st)),
           (map (reaped_slot (os_wait_nohang os)) [os_fork os]).
    rewrite map_app. split; [reflexivity|]. split; [apply reaped_slot_kept | cbn; lia].
Qed.

(** X22: over any run of the loop that keeps going, every slot of the job
    table stays at its index and either keeps its value or is reset to -5.
    So a freed slot stays freed, it is never given to a later job; new
    jobs are only appended, at most one per iteration.  The table holds
    nothing but freed slots and process ids, and the mode flag stays 0 or
    1 (with [fork] returning -1, 0 or a process id). *)
Theorem run_keeps_job_table (script : list (os_reply * string)) :
  forall st st',
    Forall (fun item => -1 <= os_fork (fst item)) script ->
    Forall slot_ok (children st) ->
    fg_only_mode st = 0 \/ fg_only_mode st = 1 ->
    outcome_of (run script st) = Continue st' ->
    Forall slot_ok (children st') /\
    (fg_only_mode st' = 0 \/ fg_only_mode st' = 1) /\
    exists kept added,
      children st' = (kept ++ added)%list /\
      Forall2 (fun c c' => c' = c \/ c' = -5) (children st) kept /\
      (List.length added <= List.length script)%nat.
Proof.
  induction script as [|[os line] script IH]; intros st st' Hforks Hok Hmode H.
  - cbn in H. inversion H; subst. split; [exact Hok|]. split; [exact Hmode|].
    exists (children st'), []. rewrite app_nil_r. split; [reflexivity|].
    split; [|cbn; lia].
    clear. induction (children st') as [|c cs IHc]; constructor; auto.
  - inversion Hforks as [|? ? Hfork Hforks']; subst. cbn [fst] in Hfork.
    cbn [run] in H.
    apply bind_outcome_continue in H as (st1 & Hit & Hrun & _).
    destruct (iteration_table _ _ _ _ Hfork Hok Hmode Hit)
      as (Hok1 & Hmode1 & k1 & a1 & Hch1 & Hk1 & Hlen1).
    destruct (IH _ _ Hforks' Hok1 Hmode1 Hrun) as (Hok' & Hmode' & k' & a' & Hch' & Hk' & Hlen').
    split; [exact Hok'|]. split; [exact Hmode'|].
    rewrite Hch1 in Hk'.
    apply Forall2_app_inv_l in Hk' as (k1' & a1' & Hk1' & Ha1' & ->).
    exists k1', (a1' ++ a')%list.
    split; [rewrite Hch', app_assoc; reflexivity|].
    split; [exact (kept_trans _ _ _ Hk1 Hk1')|].
    rewrite length_app. apply Forall2_length in Ha1'. cbn [List.length]. lia.
Qed.

Lemma run_keeps_job_table_witness :
  Forall slot_ok (children (mkState 0 101 0 0 123 [-5; -5])) /\
  (fg_only_mode (mkState 0 101 0 0 123 [-5; -5]) = 0 \/
   fg_only_mode (mkState 0 101 0 0 123 [-5; -5]) = 1) /\
  exists kept added,
    children (mkState 0 101 0 0 123 [-5; -5]) = (kept ++ added)%list /\
    Forall2 (fun c c' => c' = c \/ c' = -5) (children (set_children shell0 [-5])) kept /\
    (List.length added
     <= List.length [ (os_with 101 None nobody_done, "sleep 1 &" ++ nl);
                      (os_with 0 None (done_with 0), "status" ++ nl) ])%nat.
Proof.
  apply (run_keeps_job_table
           [ (os_with 101 None nobody_done, "sleep 1 &" ++ nl);
             (os_with 0 None (done_with 0), "status" ++ nl) ] (set_children shell0 [-5])).
  - repeat constructor; cbn; lia.
  - constructor; [left; reflexivity | constructor].
  - left. reflexivity.
  - vm_compute. reflexivity.
Defined.

Lemma dispatch_continues (os : os_reply) (st : shell_state) (p : parsed) :
  command p <> "exit" ->
  0 < os_fork os ->
  num_procs st < 150 ->
  exists st2, outcome_of (dispatch os st p) = Continue st2.
Proof.
  intros Hcmd Hfork Hroom. unfold dispatch.
  destruct (streq (command p) "exit") eqn:Ee.
  { apply String.eqb_eq in Ee. contradiction. }
  destruct (streq (command p) "cd").
  { unfold cd_builtin.
    destruct (Z.of_nat (List.length (args p)) =? 1);
      [|destruct (Z.of_nat (List.length (args p)) =? 2)];
      eexists; reflexivity. }
  destruct (streq (command p) "status").
  { unfold status_builtin.
    destruct (negb (WIFEXITED (childExitMethod st) =? 0));
      [|destruct (negb (WIFSIGNALED (childExitMethod st) =? 0))];
      eexists; reflexivity. }
  assert (Em1 : (os_fork os =? -1) = false) by (apply Z.eqb_neq; lia).
  assert (E0 : (os_fork os =? 0) = false) by (apply Z.eqb_neq; lia).
  destruct (run_in_background p =? 0).
  - unfold launch_foreground, fork_guard.
    cbn [Z.add Z.leb Z.compare Pos.compare Pos.compare_cont set_spawnpid spawnpid].
    rewrite Em1, E0.
    destruct (os_wait_fg os);
      cbn [set_childExitMethod childExitMethod];
      (destruct (negb (WIFEXITED _ =? 0));
       [|destruct (negb (WIFSIGNALED _ =? 0));
         [destruct (negb (term_signal _ =? 11))|]]);
      eexists; reflexivity.
  - unfold launch_background, fork_guard.
    cbn [Z.add Z.leb Z.compare Pos.compare Pos.compare_cont set_spawnpid spawnpid].
    rewrite Em1, E0.
    assert (Er : (150 <=? num_procs (set_spawnpid st (os_fork os))) = false)
      by (apply Z.leb_gt; exact Hroom).
    rewrite Er. cbn [set_children children childExitMethod].
    destruct (negb (WIFEXITED _ =? 0));
      [|destruct (negb (WIFSIGNALED _ =? 0))];
      eexists; reflexivity.
Qed.



(** ** The child *)

Ltac child_cases cos p :=
  unfold child_run_of, child_foreground, child_background, redirect_named,
    redirect_devnull, child_exec, output_flags;
  destruct (nonempty (input_file p)) eqn:Ein;
  destruct (nonempty (output_file p)) eqn:Eout;
  try destruct (cos_open cos (input_file p) O_RDONLY =? -1) eqn:Eoi;
  try destruct (cos_dup2 cos (cos_open cos (input_file p) O_RDONLY) 0 =? -1) eqn:Edi;
  try destruct (cos_open cos (output_file p) (Z.lor O_WRONLY (Z.lor O_CREAT O_TRUNC)) =? -1)
    eqn:Eoo;
  try destruct (cos_dup2 cos
                  (cos_open cos (output_file p) (Z.lor O_WRONLY (Z.lor O_CREAT O_TRUNC))) 1
                =? -1) eqn:Edo;
  destruct (cos_execvp cos) as [r|] eqn:Eex;
  try destruct (r <? 0) eqn:Er.

(** X24: neither child runs the program behind a broken redirection.  If
    the child gets as far as [execvp], every file the line named was
    opened and bound to its descriptor without error. *)
Theorem child_exec_needs_redirections (bg : bool) (cos : child_os) (p : parsed) :
  reaches_exec (fst (child_run_of bg cos p)) = true ->
  (nonempty (input_file p) = true ->
   cos_open cos (input_file p) O_RDONLY <> -1 /\
   cos_dup2 cos (cos_open cos (input_file p) O_RDONLY) 0 <> -1) /\
  (nonempty (output_file p) = true ->
   cos_open cos (output_file p) output_flags <> -1 /\
   cos_dup2 cos (cos_open cos (output_file p) output_flags) 1 <> -1).
Proof.
  destruct bg; child_cases cos p; cbn; intros H; try discriminate H;
    (split; intros Hn; try discriminate Hn; split; apply Z.eqb_neq; assumption).
Qed.

Lemma child_exec_needs_redirections_witness :
  (nonempty (input_file (mkParsed "wc" ["wc"] "in.txt" "" 0)) = true ->
   cos_open (mkChildOs (fun _ _ => 3) (fun _ newfd => newfd) None)
            (input_file (mkParsed "wc" ["wc"] "in.txt" "" 0)) O_RDONLY <> -1 /\
   cos_dup2 (mkChildOs (fun _ _ => 3) (fun _ newfd => newfd) None)
            (cos_open (mkChildOs (fun _ _ => 3) (fun _ newfd => newfd) None)
                      (input_file (mkParsed "wc" ["wc"] "in.txt" "" 0)) O_RDONLY) 0 <> -1) /\
  (nonempty (output_file (mkParsed "wc" ["wc"] "in.txt" "" 0)) = true ->
   cos_open (mkChildOs (fun _ _ => 3) (fun _ newfd => newfd) None)
            (output_file (mkParsed "wc" ["wc"] "in.txt" "" 0)) output_flags <> -1 /\
   cos_dup2 (mkChildOs (fun _ _ => 3) (fun _ newfd => newfd) None)
            (cos_open (mkChildOs (fun _ _ => 3) (fun _ newfd => newfd) None)
                      (output_file (mkParsed "wc" ["wc"] "in.txt" "" 0)) output_flags) 1 <> -1).
Proof.
  apply (child_exec_needs_redirections false
           (mkChildOs (fun _ _ => 3) (fun _ newfd => newfd) None)
           (mkParsed "wc" ["wc"] "in.txt" "" 0)).
  reflexivity.
Defined.

(** X25: when the child ends by itself it exits with 1 (an [open] or
    [execvp] failed) or with 2 (a [dup2] failed), never with 0; and it
    exits with 2 only before any [execvp]. *)
Theorem child_exit_codes (bg : bool) (cos : child_os) (p : parsed) (code : Z) :
  snd (child_run_of bg cos p) = ChildExited code ->
  (code = 1 \/ code = 2) /\
  (code = 2 -> reaches_exec (fst (child_run_of bg cos p)) = false).
Proof.
  destruct bg; child_cases cos p; cbn; intros H; inversion H; subst;
    (split; [auto | intros Hc; first [reflexivity | discriminate Hc]]).
Qed.

Lemma child_exit_codes_witness :
  (1 = 1 \/ 1 = 2) /\
  (1 = 2 ->
   reaches_exec (fst (child_run_of true
                        (mkChildOs (fun _ _ => 3) (fun _ newfd => newfd) (Some (-1)))
                        (mkParsed "nosuch" ["nosuch"] "" "" 1))) = false).
Proof.
  apply (child_exit_codes true
           (mkChildOs (fun _ _ => 3) (fun _ newfd => newfd) (Some (-1)))
           (mkParsed "nosuch" ["nosuch"] "" "" 1) 1).
  reflexivity.
Defined.

(** X26: in every run that gets to [execvp], the child has opened exactly
    the paths of its plan, standard input first, and rebound exactly the
    descriptors of the plan: the foreground child only those with a named
    file, the background child always both 0 and 1, with /dev/null where
    no file was named.  It passes [args[0]] and the whole of [args] to
    [execvp]. *)
Theorem child_follows_plan (bg : bool) (cos : child_os) (p : parsed) :
  reaches_exec (fst (child_run_of bg cos p)) = true ->
  opened (fst (child_run_of bg cos p)) = plan_paths (plan_of bg p) /\
  rebound (fst (child_run_of bg cos p)) = plan_descriptors (plan_of bg p) /\
  In (ChildExecvp (hd_error (args p)) (args p)) (fst (child_run_of bg cos p)).
Proof.
  unfold plan_of, plan_paths, plan_descriptors, bg_child_plan, fg_child_plan.
  cbn [child_stdin child_stdout].
  destruct bg; child_cases cos p; cbn; intros H; try discriminate H;
    repeat split; auto 10.
Qed.

Lemma child_follows_plan_witness :
  opened (fst (child_run_of true (mkChildOs (fun _ _ => 3) (fun _ newfd => newfd) None)
                            (mkParsed "sleep" ["sleep"; "9"] "" "log" 1)))
    = plan_paths (plan_of true (mkParsed "sleep" ["sleep"; "9"] "" "log" 1)) /\
  rebound (fst (child_run_of true (mkChildOs (fun _ _ => 3) (fun _ newfd => newfd) None)
                             (mkParsed "sleep" ["sleep"; "9"] "" "log" 1)))
    = plan_descriptors (plan_of true (mkParsed "sleep" ["sleep"; "9"] "" "log" 1)) /\
  In (ChildExecvp (hd_error (args (mkParsed "sleep" ["sleep"; "9"] "" "log" 1)))
                  (args (mkParsed "sleep" ["sleep"; "9"] "" "log" 1)))
     (fst (child_run_of true (mkChildOs (fun _ _ => 3) (fun _ newfd => newfd) None)
                        (mkParsed "sleep" ["sleep"; "9"] "" "log" 1))).
Proof.
  apply (child_follows_plan true (mkChildOs (fun _ _ => 3) (fun _ newfd => newfd) None)
           (mkParsed "sleep" ["sleep"; "9"] "" "log" 1)).
  reflexivity.
Defined.

(** X27: when the input redirection of a line fails, at [open] or at
    [dup2], the child stops there: the input path is the only one it has
    opened, so the output file is neither created nor truncated, and the
    program is not started. *)
Theorem input_failure_spares_output (bg : bool) (cos : child_os) (p : parsed) :
  nonempty (input_file p) = true ->
  cos_open cos (input_file p) O_RDONLY = -1 \/
  cos_dup2 cos (cos_open cos (input_file p) O_RDONLY) 0 = -1 ->
  opened (fst (child_run_of bg cos p)) = [input_file p] /\
  reaches_exec (fst (child_run_of bg cos p)) = false /\
  exists code, snd (child_run_of bg cos p) = ChildExited code.
Proof.
  intros Hin Hfail.
  destruct bg; child_cases cos p; try discriminate Hin;
    try (exfalso; destruct Hfail as [Hf | Hf];
         [apply Z.eqb_neq in Eoi | apply Z.eqb_neq in Edi]; contradiction);
    cbn; repeat split; eexists; reflexivity.
Qed.

Lemma input_failure_spares_output_witness :
  opened (fst (child_run_of false (mkChildOs (fun _ _ => -1) (fun _ newfd => newfd) None)
                            (mkParsed "sort" ["sort"] "missing" "out" 0)))
    = [input_file (mkParsed "sort" ["sort"] "missing" "out" 0)] /\
  reaches_exec (fst (child_run_of false (mkChildOs (fun _ _ => -1) (fun _ newfd => newfd) None)
                                  (mkParsed "sort" ["sort"] "missing" "out" 0))) = false /\
  exists code,
    snd (child_run_of false (mkChildOs (fun _ _ => -1) (fun _ newfd => newfd) None)
                      (mkParsed "sort" ["sort"] "missing" "out" 0)) = ChildExited code.
Proof.
  apply (input_failure_spares_output false
           (mkChildOs (fun _ _ => -1) (fun _ newfd => newfd) None)
           (mkParsed "sort" ["sort"] "missing" "out" 0)).
  - reflexivity.
  - left. reflexivity.
Defined.

(** ** A foreground command followed by [status] *)

(** The parent side of a foreground launch whose child exits with code
    [c]. *)
Lemma launch_foreground_exited
    (os : os_reply) (st : shell_state) (p : parsed) (c : Z) :
  os_fork os <> -1 ->
  os_fork os <> 0 ->
  0 <= c <= 255 ->
  os_wait_fg os = Some (256 * c) ->
  launch_foreground os st p
  = ([SysFork (os_fork os); SysWaitpid (os_fork os) 0],
     Continue (set_exit_status
                 (set_childExitMethod (set_spawnpid st (os_fork os)) (256 * c)) c)).
Proof.
  intros Hm1 H0 Hc Hw.
  destruct (exit_code_decodes c Hc) as (Hex & Hcode & _).
  unfold launch_foreground. rewrite Hw. launch_parent Hm1 H0.
  rewrite Hex, Hcode. reflexivity.
Qed.

(** The parent side of a foreground launch whose child is killed by
    signal [sig]. *)
Lemma launch_foreground_signaled
    (os : os_reply) (st : shell_state) (p : parsed) (sig core : Z) :
  os_fork os <> -1 ->
  os_fork os <> 0 ->
  1 <= sig <= 126 ->
  core = 0 \/ core = 128 ->
  os_wait_fg os = Some (sig + core) ->
  launch_foreground os st p
  = (([SysFork (os_fork os); SysWaitpid (os_fork os) 0] ++
      (if sig =? 11 then []
       else [Printf ("terminated by signal " ++ fmt_d sig ++ nl)]))%list,
     Continue (set_term_signal
                 (set_childExitMethod (set_spawnpid st (os_fork os)) (sig + core)) sig)).
Proof.
  intros Hm1 H0 Hs Hcore Hw.
  destruct (signal_decodes sig core Hs Hcore) as (Hsg & Hterm & Hex).
  unfold launch_foreground. rewrite Hw. launch_parent Hm1 H0.
  rewrite Hex, Hsg, Hterm. cbn [Z.eqb negb bind emit ret stop app set_term_signal term_signal].
  destruct (sig =? 11); reflexivity.
Qed.

Lemma bind_ret_r_trace {A : Type} (m : M A) :
  trace_of (bind m (fun a => ret a)) = trace_of m.
Proof.
  destruct m as [tr [a | c | | plan | f | w]]; cbn; rewrite ?app_nil_r; reflexivity.
Qed.

(** An iteration that launches a foreground command while no job ends:
    the prompt, the launch, the polls, and the state the launch left. *)
Lemma iteration_foreground
    (os : os_reply) (st st1 : shell_state) (line : string) (p : parsed)
    (argv : list string) (tr : list event) :
  os_signals os = [] ->
  strlen line < 2048 ->
  parse_line (fg_only_mode st) line = Ok p ->
  expand_args (os_getpid os) (args p) = Ok argv ->
  is_builtin (command p) = false ->
  run_in_background p = 0 ->
  launch_foreground os st (set_args p argv) = (tr, Continue st1) ->
  children st1 = children st ->
  Forall slot_ok (children st) ->
  (forall job, In job (children st) -> is_reaped (os_wait_nohang os job) = false) ->
  iteration os st line
  = ((Printf ": " :: tr ++
      map (fun c => SysWaitpid c WNOHANG) (live_slots (children st)))%list,
     Continue st1).
Proof.
  intros Hsig Hlen Hparse Hexp Hb Hfg Hlaunch Hch Hok Hidle.
  destruct (not_builtin_cases _ Hb) as (E1 & E2 & E3).
  unfold iteration. rewrite bind_emit, Hsig. cbn [deliver].
  rewrite bind_ret_l.
  apply Z.ltb_lt in Hlen. rewrite Z.leb_antisym, Hlen. cbn [negb].
  rewrite bind_ret_l, Hparse. cbn [lift]. rewrite bind_ret_l, Hexp. cbn [lift].
  rewrite bind_ret_l.
  unfold dispatch. cbn [set_args command run_in_background].
  rewrite E1, E2, E3, Hfg. cbn [Z.eqb].
  rewrite Hlaunch, bind_continue.
  unfold reap. rewrite <- Hch in Hok, Hidle.
  rewrite reap_loop_idle by (first [assumption | lia]).
  cbn [bind ret fst snd trace_of outcome_of]. rewrite app_nil_r, set_children_same, Hch.
  reflexivity.
Qed.

(** What an iteration prints when its line is [status]: the prompt, the
    line of the built-in, and whatever the reaper adds. *)
Lemma iteration_status (os : os_reply) (st : shell_state) :
  os_signals os = [] ->
  exists rest,
    printed (trace_of (iteration os st ("status" ++ nl)))
    = ": " :: app (printed (trace_of (status_builtin st))) rest.
Proof.
  intros Hsig. unfold iteration. rewrite bind_emit, Hsig. cbn [deliver].
  rewrite bind_ret_l.
  change (2048 <=? strlen ("status" ++ nl)) with false. cbv iota.
  rewrite bind_ret_l.
  change (parse_line (fg_only_mode st) ("status" ++ nl))
    with (Ok (mkParsed "status" ["status"] "" "" 0)).
  cbn [lift]. rewrite bind_ret_l.
  change (expand_args (os_getpid os) (args (mkParsed "status" ["status"] "" "" 0)))
    with (Ok (A := list string) ["status"]).
  cbn [lift]. rewrite bind_ret_l.
  change (dispatch os st (set_args (mkParsed "status" ["status"] "" "" 0) ["status"]))
    with (status_builtin st).
  destruct (trace_bind_prefix (status_builtin st) (fun st' => reap os st')) as [rest Hrest].
  cbn [trace_of fst printed]. cbn [trace_of] in Hrest. rewrite Hrest, printed_app.
  eexists. reflexivity.
Qed.

(** X13: a foreground command that exits with code [c], in an iteration
    in which no background job is reaped, prints nothing, and the
    [status] given on the next line prints "exit value c". *)
Theorem status_after_exit_code
    (os1 os2 : os_reply) (st : shell_state) (line : string) (p : parsed)
    (argv : list string) (c : Z) :
  os_signals os1 = [] ->
  os_signals os2 = [] ->
  strlen line < 2048 ->
  parse_line (fg_only_mode st) line = Ok p ->
  expand_args (os_getpid os1) (args p) = Ok argv ->
  is_builtin (command p) = false ->
  run_in_background p = 0 ->
  os_fork os1 <> -1 ->
  os_fork os1 <> 0 ->
  0 <= c <= 255 ->
  os_wait_fg os1 = Some (256 * c) ->
  Forall slot_ok (children st) ->
  (forall job, In job (children st) -> is_reaped (os_wait_nohang os1 job) = false) ->
  exists rest,
    printed (trace_of (run [(os1, line); (os2, "status" ++ nl)] st))
    = ": " :: ": " :: ("exit value " ++ fmt_d c ++ nl) :: rest.
Proof.
  intros Hs1 Hs2 Hlen Hparse Hexp Hb Hfg Hm1 H0 Hc Hw Hok Hidle.
  destruct (exit_code_decodes c Hc) as (Hex & Hcode & _).
  pose proof (launch_foreground_exited os1 st (set_args p argv) c Hm1 H0 Hc Hw) as Hl.
  cbn [run].
  rewrite (iteration_foreground _ _ _ _ _ _ _ Hs1 Hlen Hparse Hexp Hb Hfg Hl eq_refl Hok Hidle).
  rewrite bind_continue. cbn [trace_of fst]. rewrite bind_ret_r_trace.
  destruct (iteration_status os2
              (set_exit_status
                 (set_childExitMethod (set_spawnpid st (os_fork os1)) (256 * c)) c) Hs2)
    as [rest Hrest].
  assert (Hpolls : forall cs, printed (map (fun x => SysWaitpid x WNOHANG) cs) = []).
  { induction cs as [|x cs IH]; [reflexivity | exact IH]. }
  cbn [app printed]. rewrite printed_app, Hpolls, Hrest. cbn [app].
  unfold status_builtin.
  cbn [set_exit_status set_childExitMethod set_spawnpid childExitMethod].
  rewrite Hex, Hcode. cbn [Z.eqb negb bind emit ret trace_of fst printed app exit_status].
  eexists. reflexivity.
Qed.

Lemma status_after_exit_code_witness :
  exists rest,
    printed (trace_of (run [ (os_with 100 (Some (256 * 3)) nobody_done, "false" ++ nl);
                             (os_with 0 None (done_with 0), "status" ++ nl) ]
                           (set_children shell0 [77])))
    = ": " :: ": " :: ("exit value " ++ fmt_d 3 ++ nl) :: rest.
Proof.
  apply (status_after_exit_code (os_with 100 (Some (256 * 3)) nobody_done)
           (os_with 0 None (done_with 0)) (set_children shell0 [77]) ("false" ++ nl)
           (mkParsed "false" ["false"] "" "" 0) ["false"] 3).
  - reflexivity.
  - reflexivity.
  - vm_compute. reflexivity.
  - reflexivity.
  - reflexivity.
  - reflexivity.
  - reflexivity.
  - cbn. lia.
  - cbn. lia.
  - lia.
  - reflexivity.
  - constructor; [right; lia | constructor].
  - intros job _. reflexivity.
Defined.

(** X14: a foreground command killed by signal [sig], with or without a
    core dump, in an iteration in which no background job is reaped, has
    "terminated by signal sig" printed at once unless [sig] is 11; the
    [status] given on the next line prints it in either case. *)
Theorem status_after_signal
    (os1 os2 : os_reply) (st : shell_state) (line : string) (p : parsed)
    (argv : list string) (sig core : Z) :
  os_signals os1 = [] ->
  os_signals os2 = [] ->
  strlen line < 2048 ->
  parse_line (fg_only_mode st) line = Ok p ->
  expand_args (os_getpid os1) (args p) = Ok argv ->
  is_builtin (command p) = false ->
  run_in_background p = 0 ->
  os_fork os1 <> -1 ->
  os_fork os1 <> 0 ->
  1 <= sig <= 126 ->
  core = 0 \/ core = 128 ->
  os_wait_fg os1 = Some (sig + core) ->
  Forall slot_ok (children st) ->
  (forall job, In job (children st) -> is_reaped (os_wait_nohang os1 job) = false) ->
  exists rest,
    printed (trace_of (run [(os1, line); (os2, "status" ++ nl)] st))
    = ": " ::
      app (if sig =? 11 then [] else ["terminated by signal " ++ fmt_d sig ++ nl])
          (": " :: ("terminated by signal " ++ fmt_d sig ++ nl) :: rest).
Proof.
  intros Hs1 Hs2 Hlen Hparse Hexp Hb Hfg Hm1 H0 Hsig Hcore Hw Hok Hidle.
  destruct (signal_decodes sig core Hsig Hcore) as (Hsg & Hterm & Hex).
  pose proof (launch_foreground_signaled os1 st (set_args p argv) sig core
                Hm1 H0 Hsig Hcore Hw) as Hl.
  cbn [run].
  rewrite (iteration_foreground _ _ _ _ _ _ _ Hs1 Hlen Hparse Hexp Hb Hfg Hl eq_refl Hok Hidle).
  rewrite bind_continue. cbn [trace_of fst]. rewrite bind_ret_r_trace.
  destruct (iteration_status os2
              (set_term_signal
                 (set_childExitMethod (set_spawnpid st (os_fork os1)) (sig + core)) sig) Hs2)
    as [rest Hrest].
  assert (Hpolls : forall cs, printed (map (fun x => SysWaitpid x WNOHANG) cs) = []).
  { induction cs as [|x cs IH]; [reflexivity | exact IH]. }
  rewrite <- app_assoc. cbn [app printed].
  rewrite !printed_app, Hpolls, Hrest. cbn [app].
  unfold status_builtin.
  cbn [set_term_signal set_childExitMethod set_spawnpid childExitMethod].
  rewrite Hex, Hsg, Hterm.
  cbn [Z.eqb negb bind emit ret trace_of fst printed app term_signal].
  exists rest. destruct (sig =? 11); reflexivity.
Qed.

Lemma status_after_signal_witness :
  exists rest,
    printed (trace_of (run [ (os_with 100 (Some (11 + 128)) nobody_done, "crash" ++ nl);
                             (os_with 0 None (done_with 0), "status" ++ nl) ]
                           (set_children shell0 [77])))
    = ": " ::
      app (if 11 =? 11 then [] else ["terminated by signal " ++ fmt_d 11 ++ nl])
          (": " :: ("terminated by signal " ++ fmt_d 11 ++ nl) :: rest).
Proof.
  apply (status_after_signal (os_with 100 (Some (11 + 128)) nobody_done)
           (os_with 0 None (done_with 0)) (set_children shell0 [77]) ("crash" ++ nl)
           (mkParsed "crash" ["crash"] "" "" 0) ["crash"] 11 128).
  - reflexivity.
  - reflexivity.
  - vm_compute. reflexivity.
  - reflexivity.
  - reflexivity.
  - reflexivity.
  - reflexivity.
  - cbn. lia.
  - cbn. lia.
  - lia.
  - right. reflexivity.
  - reflexivity.
  - constructor; [right; lia | constructor].
  - intros job _. reflexivity.
Defined.

(** ** A trailing [&] and the mode *)

Lemma launch_foreground_parent (os : os_reply) (st : shell_state) (p : parsed) :
  os_fork os <> -1 ->
  os_fork os <> 0 ->
  exists tr st2,
    launch_foreground os st p
      = (SysFork (os_fork os) :: SysWaitpid (os_fork os) 0 :: tr, Continue st2) /\
    fg_only_mode st2 = fg_only_mode st /\
    children st2 = children st.
Proof.
  intros Hm1 H0. unfold launch_foreground, fork_guard.
  cbn [Z.add Z.leb Z.compare Pos.compare Pos.compare_cont set_spawnpid spawnpid].
  apply Z.eqb_neq in Hm1, H0. rewrite Hm1, H0.
  destruct (os_wait_fg os);
    cbn [set_childExitMethod childExitMethod];
    (destruct (negb (WIFEXITED _ =? 0));
     [|destruct (negb (WIFSIGNALED _ =? 0));
       [destruct (negb (term_signal _ =? 11))|]]);
    cbn; eexists; eexists; (split; [reflexivity | split; reflexivity]).
Qed.

Lemma launch_background_parent (os : os_reply) (st : shell_state) (p : parsed) :
  os_fork os <> -1 ->
  os_fork os <> 0 ->
  num_procs st < 150 ->
  exists tr st2,
    launch_background os st p
      = (SysFork (os_fork os)
         :: Printf ("background pid is " ++ fmt_d (os_fork os) ++ nl) :: tr,
         Continue st2) /\
    fg_only_mode st2 = fg_only_mode st /\
    children st2 = (children st ++ [os_fork os])%list.
Proof.
  intros Hm1 H0 Hroom. unfold launch_background, fork_guard.
  cbn [Z.add Z.leb Z.compare Pos.compare Pos.compare_cont set_spawnpid spawnpid].
  apply Z.eqb_neq in Hm1, H0. rewrite Hm1, H0.
  assert (Hr : (150 <=? num_procs (set_spawnpid st (os_fork os))) = false)
    by (apply Z.leb_gt; exact Hroom).
  rewrite Hr. cbn [set_children children childExitMethod].
  destruct (negb (WIFEXITED _ =? 0));
    [|destruct (negb (WIFSIGNALED _ =? 0))];
    cbn; eexists; eexists; (split; [reflexivity | split; reflexivity]).
Qed.

Lemma bind_continue_l {A B : Type} (tr : list event) (a : A) (k : A -> M B) :
  bind (tr, Continue a) k = ((tr ++ fst (k a))%list, snd (k a)).
Proof.
  unfold bind. destruct (k a). reflexivity.
Qed.

(** An iteration whose line is read, parsed and expanded comes down to the
    dispatch and the reaper. *)
Lemma iteration_unfold
    (os : os_reply) (st st1 : shell_state) (line : string) (p : parsed)
    (argv : list string) :
  outcome_of (deliver (os_signals os) st) = Continue st1 ->
  strlen line < 2048 ->
  parse_line (fg_only_mode st1) line = Ok p ->
  expand_args (os_getpid os) (args p) = Ok argv ->
  iteration os st line
  = ((Printf ": " :: fst (deliver (os_signals os) st) ++
      fst (bind (dispatch os st1 (set_args p argv)) (fun s => reap os s)))%list,
     snd (bind (dispatch os st1 (set_args p argv)) (fun s => reap os s))).
Proof.
  intros Hd Hlen Hparse Hexp. unfold iteration. rewrite bind_emit.
  rewrite (surjective_M (deliver (os_signals os) st)), Hd, bind_continue.
  apply Z.ltb_lt in Hlen. rewrite Z.leb_antisym, Hlen. cbn [negb].
  rewrite bind_ret_l, Hparse. cbn [lift]. rewrite bind_ret_l, Hexp. cbn [lift].
  rewrite bind_ret_l. cbn [trace_of outcome_of fst snd]. reflexivity.
Qed.

Lemma reap_shape (os : os_reply) (st : shell_state) :
  exists tr st',
    reap os st = (tr, Continue st') /\
    fg_only_mode st' = fg_only_mode st /\
    List.length (children st') = List.length (children st).
Proof.
  unfold reap.
  destruct (reap_loop_shape os (children st) 0 st) as (st' & cs' & Ho & _ & _ & H2 & Hm).
  destruct (reap_loop os 0 st (children st)) as [tr o].
  cbn [outcome_of snd] in Ho. subst o. rewrite bind_continue_l. cbn [ret fst snd].
  eexists. eexists. split; [reflexivity|]. cbn [set_children fg_only_mode children].
  split; [exact Hm | symmetry; exact (Forall2_length H2)].
Qed.


